(** * scalpl: path-addressed access to nested dictionaries and lists

    A shallow embedding of [scalpl/scalpl.py] and a verification of the
    properties its specification states about the path parser
    ([split_indexes], [split_path]) and the tree navigator ([traverse],
    [_traverse], [_traverse_list] and the methods of [Cut]).

    Python values are embedded as the inductive type [obj]; a subscript
    [v[k]] is the function [py_getitem]; an exception is a value of type
    [exn] and a computation that may raise has type [result A].  Strings
    are sequences of code points below 256. *)

From Stdlib Require Import ZArith Ascii String List Lia Bool.
From Stdlib Require DecimalString.
From stdpp Require Import base list strings.
Import ListNotations.

Set Warnings "-register-all".

Local Open Scope Z_scope.
Local Open Scope list_scope.

(** ** Python built-ins used by the module *)

Module Py.

(** *** Strings *)

(** [s[:-1]]: every character but the last one; the empty string stays
    empty. *)
Fixpoint drop_last (s : string) : string :=
  match s with
  | EmptyString => EmptyString
  | String c EmptyString => EmptyString
  | String c s' => String c (drop_last s')
  end.

(** [c in s] for a one-character string [c]. *)
Fixpoint contains_char (c : ascii) (s : string) : bool :=
  match s with
  | EmptyString => false
  | String a s' => if Ascii.eqb a c then true else contains_char c s'
  end.

(** The scanning loop of [str.split(sep)] for a non-empty [sep]: the first
    component is the segment under construction, the second the segments
    that follow it.  [skip] counts the characters of a separator occurrence
    that are still to be passed over. *)
Fixpoint split_scan (sep s : string) (skip : nat) : string * list string :=
  match s with
  | EmptyString => (EmptyString, [])
  | String c s' =>
      match skip with
      | S k => split_scan sep s' k
      | O =>
          if String.prefix sep s
          then (EmptyString,
                let (h, t) := split_scan sep s' (String.length sep - 1) in h :: t)
          else let (h, t) := split_scan sep s' 0 in (String c h, t)
      end
  end.

(** [s.split(sep)] for a non-empty separator: the segments between the
    leftmost non-overlapping occurrences of [sep], empty segments kept. *)
Definition str_split (s sep : string) : list string :=
  let (h, t) := split_scan sep s 0 in h :: t.

(** [sep.join(l)]. *)
Fixpoint str_join (sep : string) (l : list string) : string :=
  match l with
  | [] => EmptyString
  | [x] => x
  | x :: l' => String.append x (String.append sep (str_join sep l'))
  end.

(** *** [int(s)] on a string *)

(** White space skipped by [int] around the literal: the ASCII white space
    characters and, above 127, the Unicode spaces NEL and NBSP. *)
Definition is_space (c : ascii) : bool :=
  let n := nat_of_ascii c in
  ((9 <=? n)%nat && (n <=? 13)%nat) || (n =? 32)%nat
  || (n =? 133)%nat || (n =? 160)%nat.

Definition is_digit (c : ascii) : bool :=
  let n := nat_of_ascii c in (48 <=? n)%nat && (n <=? 57)%nat.

Definition digit_value (c : ascii) : Z := Z.of_nat (nat_of_ascii c) - 48.

Fixpoint lstrip (s : string) : string :=
  match s with
  | EmptyString => EmptyString
  | String c s' => if is_space c then lstrip s' else s
  end.

Fixpoint rstrip (s : string) : string :=
  match s with
  | EmptyString => EmptyString
  | String c s' =>
      match rstrip s' with
      | EmptyString => if is_space c then EmptyString else String c EmptyString
      | r => String c r
      end
  end.

(** Decimal digits, a single underscore allowed between two digits. *)
Fixpoint int_digits (s : string) (acc : Z) (after_digit : bool) : option Z :=
  match s with
  | EmptyString => if after_digit then Some acc else None
  | String c s' =>
      if is_digit c then int_digits s' (10 * acc + digit_value c) true
      else if Ascii.eqb c "_"
           then (if after_digit then int_digits s' acc false else None)
           else None
  end.

(** [int(s)]: [None] stands for the [ValueError] the call raises.  The
    interpreter's optional limit on the number of digits is left out. *)
Definition py_int (s : string) : option Z :=
  match rstrip (lstrip s) with
  | String "+" r => int_digits r 0 false
  | String "-" r => Z.opp <$> int_digits r 0 false
  | t => int_digits t 0 false
  end.

(** [str(z)] for an integer. *)
Definition str_of_int (z : Z) : string :=
  DecimalString.NilZero.string_of_int (Z.to_int z).

(** *** Values *)

(** A subscript is a string or an integer: the elements of the lists that
    [split_path] returns, and the keys of dictionaries. *)
Inductive key :=
| KStr (s : string)
| KInt (i : Z).

Global Instance key_eq_dec : EqDecision key.
Proof. solve_decision. Defined.

(** The trees [Cut] wraps: dictionaries (insertion ordered, keyed by strings
    or integers), lists and scalars.  An object is a tree: no object occurs
    twice in it. *)
Inductive obj :=
| VNone
| VBool (b : bool)
| VInt (i : Z)
| VStr (s : string)
| VList (l : list obj)
| VDict (d : list (key * obj)).

(** *** Exceptions *)

Inductive exn_class :=
  KeyError | IndexError | TypeError | ValueError | AttributeError | OverflowError.

Global Instance exn_class_eq_dec : EqDecision exn_class.
Proof. solve_decision. Defined.

(** [Raised c arg] is an exception the interpreter raises itself: a failed
    subscript, [int] on a bad literal, [split] with an empty separator.  A
    [KeyError] raised by a dictionary carries the missing key, the others
    carry a fixed message.  The remaining constructors are the exceptions
    the module builds. *)
Inductive exn :=
| Raised (c : exn_class) (arg : option key)
| KeyErrorAt (failing_key : key) (original_path : string) (raised_error : exn)
| IndexErrorAt (failing_key : key) (original_path : string) (raised_error : exn)
| TypeErrorAt (failing_key : key) (original_path : string)
| NotDictOrList (failing_key : key) (original_path : string)
| MissingBrackets (key : string)
| IndexMustBeInteger (index : string) (path : string).

Definition class_of (e : exn) : exn_class :=
  match e with
  | Raised c _ => c
  | KeyErrorAt _ _ _ => KeyError
  | IndexErrorAt _ _ _ => IndexError
  | TypeErrorAt _ _ | NotDictOrList _ _ => TypeError
  | MissingBrackets _ | IndexMustBeInteger _ _ => ValueError
  end.

(** The full path an exception's message quotes, if any. *)
Definition original_path_of (e : exn) : option string :=
  match e with
  | KeyErrorAt _ p _ | IndexErrorAt _ p _ | TypeErrorAt _ p | NotDictOrList _ p => Some p
  | Raised _ _ | MissingBrackets _ | IndexMustBeInteger _ _ => None
  end.

(** The key or index an exception's message names, if any. *)
Definition failing_key_of (e : exn) : option key :=
  match e with
  | KeyErrorAt k _ _ | IndexErrorAt k _ _ | TypeErrorAt k _ | NotDictOrList k _ => Some k
  | Raised _ arg => arg
  | MissingBrackets _ => None
  | IndexMustBeInteger i _ => Some (KStr i)
  end.

Inductive result (A : Type) :=
| Ok (a : A)
| Raise (e : exn).
Arguments Ok {A} a.
Arguments Raise {A} e.

Definition bind {A B} (r : result A) (k : A -> result B) : result B :=
  match r with
  | Ok a => k a
  | Raise e => Raise e
  end.

(** [try: r except ... as e: handler e]; a handler re-raises the classes it
    does not catch. *)
Definition try_except {A} (r : result A) (handler : exn -> result A) : result A :=
  match r with
  | Ok a => Ok a
  | Raise e => handler e
  end.

(** *** Subscripts *)

Fixpoint dict_get (k : key) (d : list (key * obj)) : option obj :=
  match d with
  | [] => None
  | (k', v) :: d' => if decide (k' = k) then Some v else dict_get k d'
  end.

(** [d[k] = x]: an existing entry keeps its position, a new one goes last. *)
Fixpoint dict_set (k : key) (x : obj) (d : list (key * obj)) : list (key * obj) :=
  match d with
  | [] => [(k, x)]
  | (k', v) :: d' => if decide (k' = k) then (k, x) :: d' else (k', v) :: dict_set k x d'
  end.

Fixpoint dict_del (k : key) (d : list (key * obj)) : list (key * obj) :=
  match d with
  | [] => []
  | (k', v) :: d' => if decide (k' = k) then d' else (k', v) :: dict_del k d'
  end.

(** The position a sequence of length [n] gives to index [i]: a negative
    index counts from the end. *)
Definition norm_index (i : Z) (n : nat) : option nat :=
  let j := if i <? 0 then i + Z.of_nat n else i in
  if (0 <=? j) && (j <? Z.of_nat n) then Some (Z.to_nat j) else None.

(** The integers that fit the interpreter's index type ([ssize_t] of a
    64-bit build).  A subscript with an index outside it is an [IndexError];
    [list.pop] converts its argument itself and raises [OverflowError]. *)
Definition fits_ssize_t (i : Z) : bool := (- 2 ^ 63 <=? i) && (i <? 2 ^ 63).

(** [v[k]] *)
Definition py_getitem (v : obj) (k : key) : result obj :=
  match v with
  | VDict d =>
      match dict_get k d with
      | Some x => Ok x
      | None => Raise (Raised KeyError (Some k))
      end
  | VList l =>
      match k with
      | KInt i =>
          match norm_index i (length l) with
          | Some n => match l !! n with
                      | Some x => Ok x
                      | None => Raise (Raised IndexError None)
                      end
          | None => Raise (Raised IndexError None)
          end
      | KStr _ => Raise (Raised TypeError None)
      end
  | VStr s =>
      match k with
      | KInt i =>
          match norm_index i (String.length s) with
          | Some n => match String.get n s with
                      | Some c => Ok (VStr (String c EmptyString))
                      | None => Raise (Raised IndexError None)
                      end
          | None => Raise (Raised IndexError None)
          end
      | KStr _ => Raise (Raised TypeError None)
      end
  | VNone | VBool _ | VInt _ => Raise (Raised TypeError None)
  end.

(** [v[k] = x]: the container after the assignment. *)
Definition py_setitem (v : obj) (k : key) (x : obj) : result obj :=
  match v with
  | VDict d => Ok (VDict (dict_set k x d))
  | VList l =>
      match k with
      | KInt i =>
          match norm_index i (length l) with
          | Some n => Ok (VList (<[n := x]> l))
          | None => Raise (Raised IndexError None)
          end
      | KStr _ => Raise (Raised TypeError None)
      end
  | VStr _ =>
      match k with
      | KInt i =>
          if fits_ssize_t i then Raise (Raised TypeError None)
          else Raise (Raised IndexError None)
      | KStr _ => Raise (Raised TypeError None)
      end
  | VNone | VBool _ | VInt _ => Raise (Raised TypeError None)
  end.

(** [del v[k]]: the container after the deletion. *)
Definition py_delitem (v : obj) (k : key) : result obj :=
  match v with
  | VDict d =>
      match dict_get k d with
      | Some _ => Ok (VDict (dict_del k d))
      | None => Raise (Raised KeyError (Some k))
      end
  | VList l =>
      match k with
      | KInt i =>
          match norm_index i (length l) with
          | Some n => Ok (VList (delete n l))
          | None => Raise (Raised IndexError None)
          end
      | KStr _ => Raise (Raised TypeError None)
      end
  | VStr _ =>
      match k with
      | KInt i =>
          if fits_ssize_t i then Raise (Raised TypeError None)
          else Raise (Raised IndexError None)
      | KStr _ => Raise (Raised TypeError None)
      end
  | VNone | VBool _ | VInt _ => Raise (Raised TypeError None)
  end.

(** [v.pop(k)]: the value removed and the container after the call.  A
    scalar has no [pop] attribute; a list index that does not fit the index
    type is an [OverflowError] (a list being shorter than [2 ^ 63], such an
    index is never in range). *)
Definition py_pop (v : obj) (k : key) : result (obj * obj) :=
  match v with
  | VDict d =>
      match dict_get k d with
      | Some x => Ok (x, VDict (dict_del k d))
      | None => Raise (Raised KeyError (Some k))
      end
  | VList l =>
      match k with
      | KInt i =>
          match norm_index i (length l) with
          | Some n => match l !! n with
                      | Some x => Ok (x, VList (delete n l))
                      | None => Raise (Raised IndexError None)
                      end
          | None =>
              if fits_ssize_t i then Raise (Raised IndexError None)
              else Raise (Raised OverflowError None)
          end
      | KStr _ => Raise (Raised TypeError None)
      end
  | VStr _ | VNone | VBool _ | VInt _ => Raise (Raised AttributeError None)
  end.

(** [s.split(sep)]; an empty separator is a [ValueError]. *)
Definition py_split (s sep : string) : result (list string) :=
  if decide (sep = EmptyString) then Raise (Raised ValueError None)
  else Ok (str_split s sep).

(** [*init, last = l]; unpacking an empty list is a [ValueError]. *)
Fixpoint unpack_last {A} (l : list A) : result (list A * A) :=
  match l with
  | [] => Raise (Raised ValueError None)
  | [x] => Ok ([], x)
  | x :: l' => bind (unpack_last l') (fun '(init, last) => Ok (x :: init, last))
  end.

(** *** Dictionary methods *)

(** A key as an object: what iterating a dictionary yields. *)
Definition obj_of_key (k : key) : obj :=
  match k with
  | KStr s => VStr s
  | KInt i => VInt i
  end.

(** [dict.fromkeys(seq, value)] *)
Definition dict_fromkeys (seq : list key) (value : obj) : list (key * obj) :=
  fold_left (fun d k => dict_set k value d) seq [].

(** [d.update(other)]: the entries of [other] assigned in turn. *)
Definition dict_update (d other : list (key * obj)) : list (key * obj) :=
  fold_left (fun d '(k, x) => dict_set k x d) other d.

(** [d.popitem()]: the entry inserted last and the entries left; [None] for
    the [KeyError] of an empty dictionary. *)
Fixpoint dict_popitem (d : list (key * obj)) : option ((key * obj) * list (key * obj)) :=
  match d with
  | [] => None
  | [entry] => Some (entry, [])
  | entry :: d' =>
      match dict_popitem d' with
      | Some (last, init) => Some (last, entry :: init)
      | None => None
      end
  end.

End Py.

Import Py.

Notation "'let*' x ':=' e 'in' k" := (bind e (fun x => k))
  (at level 10, x pattern, e at level 100, k at level 200).

(** ** The module *)

(** *** Error constructors *)

Definition key_error (failing_key : key) (original_path : string) (raised_error : exn) : exn :=
  KeyErrorAt failing_key original_path raised_error.

Definition index_error (failing_key : key) (original_path : string) (raised_error : exn) : exn :=
  IndexErrorAt failing_key original_path raised_error.

(** The message of [type_error] leaves [raised_error] out. *)
Definition type_error (failing_key : key) (original_path : string) (raised_error : exn) : exn :=
  TypeErrorAt failing_key original_path.

Definition missing_brackets_error (key : string) : exn := MissingBrackets key.

Definition index_must_be_integer_error (index : string) (path : string) : exn :=
  IndexMustBeInteger index path.

(** *** The path parser *)

(** The loop of [split_indexes] over the pieces that follow a ['[']: the
    integers read, or the value [index] had when [int(index)] raised. *)
Fixpoint read_indexes (str_indexes : list string) : string + list Z :=
  match str_indexes with
  | [] => inr []
  | str_index :: rest =>
      let index := drop_last str_index in
      match py_int index with
      | None => inl index
      | Some i =>
          match read_indexes rest with
          | inl bad => inl bad
          | inr result => inr (i :: result)
          end
      end
  end.

Definition split_indexes (path : string) : result (list key) :=
  let (key, str_indexes) := split_scan "[" path 0 in
  match str_indexes with
  | [] => Ok [KStr key]
  | _ =>
      match read_indexes str_indexes with
      | inr indexes => Ok (KStr key :: map KInt indexes)
      | inl index =>
          if negb (String.eqb index EmptyString) && negb (contains_char "]" index)
          then Raise (index_must_be_integer_error index path)
          else Raise (missing_brackets_error path)
      end
  end.

(** The loop of [split_path]: [result.extend(split_indexes(key))] for each
    key in turn. *)
Fixpoint extend_all (keys : list string) : result (list key) :=
  match keys with
  | [] => Ok []
  | key :: rest =>
      let* key_and_indexes := split_indexes key in
      let* result := extend_all rest in
      Ok (key_and_indexes ++ result)
  end.

Definition split_path (path : string) (key_separator : string) : result (list key) :=
  let* keys := py_split path key_separator in
  extend_all keys.

(** *** The navigator of [__getitem__] and [__setitem__] *)

(** The loop of [traverse]: the value reached, or the key and the exception
    of the subscript that raised. *)
Fixpoint traverse_loop (value : obj) (keys : list key) : obj + key * exn :=
  match keys with
  | [] => inl value
  | key :: rest =>
      match py_getitem value key with
      | Ok v => traverse_loop v rest
      | Raise e => inr (key, e)
      end
  end.

(** [traverse] catches [TypeError] only. *)
Definition traverse (data : obj) (keys : list key) (original_path : string) : result obj :=
  match traverse_loop data keys with
  | inl value => Ok value
  | inr (key, e) =>
      match class_of e with
      | TypeError => Raise (NotDictOrList key original_path)
      | _ => Raise e
      end
  end.

(** The object at the end of [keys], replaced by [new] where it sits in
    [root]: what an assignment through the reference [traverse] returned
    does to the tree. *)
Fixpoint replace_at (root : obj) (keys : list key) (new : obj) : obj :=
  match keys with
  | [] => new
  | key :: rest =>
      match py_getitem root key with
      | Ok child =>
          match py_setitem root key (replace_at child rest new) with
          | Ok root' => root'
          | Raise _ => root
          end
      | Raise _ => root
      end
  end.

(** *** References into the tree *)

(** A reference to an object of the tree: the subscripts that lead to it
    from the root, and the object found there.  The methods that assign
    through a reference write the new container back at [loc]. *)
Record ref := { loc : list key; val : obj }.

Definition root_ref (data : obj) : ref := {| loc := []; val := data |}.

(** [parent[k]] as a reference. *)
Definition subscript (parent : ref) (k : key) : result ref :=
  let* v := py_getitem (val parent) k in
  Ok {| loc := loc parent ++ [k]; val := v |}.

(** [parent[k] = x]: the tree after the assignment. *)
Definition store (data : obj) (parent : ref) (k : key) (x : obj) : result obj :=
  let* container := py_setitem (val parent) k x in
  Ok (replace_at data (loc parent) container).

(** [f"{k}"] *)
Definition str_of_key (k : key) : string :=
  match k with
  | KStr s => s
  | KInt i => str_of_int i
  end.

(** *** The navigator of the parent-resolving methods *)

(** The loop of [_traverse_list] over [str_indexes[:-1]].  A [ValueError] of
    [int] is not caught by its [except IndexError]. *)
Fixpoint walk_indexes (parent : ref) (str_indexes : list string)
    (original_path : string) : result ref :=
  match str_indexes with
  | [] => Ok parent
  | str_index :: rest =>
      match py_int (drop_last str_index) with
      | None => Raise (Raised ValueError None)
      | Some index =>
          match subscript parent (KInt index) with
          | Ok parent' => walk_indexes parent' rest original_path
          | Raise error =>
              match class_of error with
              | IndexError => Raise (index_error (KInt index) original_path error)
              | _ => Raise error
              end
          end
      end
  end.

Definition _traverse_list (parent : ref) (key : string) (original_path : string)
    : result (ref * Py.key) :=
  let (key, str_indexes) := split_scan "[" key 0 in
  match str_indexes with
  | [] => Ok (parent, KStr key)
  | _ =>
      let* parent :=
        try_except (subscript parent (KStr key)) (fun error =>
          match class_of error with
          | KeyError => Raise (key_error (KStr key) original_path error)
          | TypeError => Raise (type_error (KStr key) original_path error)
          | _ => Raise error
          end) in
      let* parent := walk_indexes parent (removelast str_indexes) original_path in
      let last := drop_last (List.last str_indexes EmptyString) in
      match py_int last with
      | Some last_index => Ok (parent, KInt last_index)
      | None => Raise (index_error (KStr last) original_path (Raised ValueError None))
      end
  end.

(** The loop of [_traverse] over [parent_keys]: the reference reached, or
    the value of [sub_key] and the exception when a step raised. *)
Fixpoint walk_parents (parent : ref) (parent_keys : list string) (path : string)
    : ref + key * exn :=
  match parent_keys with
  | [] => inl parent
  | sub_key :: rest =>
      match _traverse_list parent sub_key path with
      | Raise error => inr (KStr sub_key, error)
      | Ok (parent', sub_key') =>
          match subscript parent' sub_key' with
          | Raise error => inr (sub_key', error)
          | Ok child => walk_parents child rest path
          end
      end
  end.

(** ** The class [Cut] *)

Module Cut.

Record t := { data : obj; sep : string }.

(** [bool(data)] *)
Definition truthy (v : obj) : bool :=
  match v with
  | VNone => false
  | VBool b => b
  | VInt i => negb (i =? 0)
  | VStr s => negb (String.eqb s EmptyString)
  | VList l => match l with [] => false | _ => true end
  | VDict d => match d with [] => false | _ => true end
  end.

(** [default is not None] *)
Definition is_not_None (v : obj) : bool :=
  match v with
  | VNone => false
  | _ => true
  end.

Definition __init__ (data : obj) (sep : string) : t :=
  {| data := if truthy data then data else VDict []; sep := sep |}.

Definition _traverse (self : t) (parent : ref) (path : string) : result (ref * key) :=
  let* keys := py_split path (sep self) in
  let* (parent_keys, last_key) := unpack_last keys in
  let* parent :=
    match walk_parents parent parent_keys path with
    | inl parent => Ok parent
    | inr (sub_key, error) =>
        match class_of error with
        | KeyError => Raise (key_error sub_key path error)
        | IndexError => Raise (index_error sub_key path error)
        | TypeError =>
            Raise (key_error sub_key path (Raised KeyError (Some (KStr (str_of_key sub_key)))))
        | _ => Raise error
        end
    end in
  _traverse_list parent last_key path.

Definition __contains__ (self : t) (path : string) : result bool :=
  let* (parent, last_key) := _traverse self (root_ref (data self)) path in
  match py_getitem (val parent) last_key with
  | Ok _ => Ok true
  | Raise error =>
      match class_of error with
      | IndexError | KeyError => Ok false
      | _ => Raise error
      end
  end.

(** The methods that mutate the tree return their outcome and the tree as
    the call leaves it. *)
Definition __delitem__ (self : t) (path : string) : result unit * obj :=
  match _traverse self (root_ref (data self)) path with
  | Raise error => (Raise error, data self)
  | Ok (parent, last_key) =>
      match py_delitem (val parent) last_key with
      | Ok container => (Ok tt, replace_at (data self) (loc parent) container)
      | Raise error =>
          match class_of error with
          | KeyError => (Raise (key_error last_key path error), data self)
          | IndexError => (Raise (index_error last_key path error), data self)
          | _ => (Raise error, data self)
          end
      end
  end.

Definition __getitem__ (self : t) (path : string) : result obj :=
  let* steps := split_path path (sep self) in
  let* (keys, last_key) := unpack_last steps in
  let* item := traverse (data self) keys path in
  try_except (py_getitem item last_key) (fun error =>
    match class_of error with
    | KeyError => Raise (key_error last_key path error)
    | IndexError => Raise (index_error last_key path error)
    | _ => Raise error
    end).

Definition __setitem__ (self : t) (path : string) (value : obj) : result unit * obj :=
  match
    (let* steps := split_path path (sep self) in
     let* (keys, last_key) := unpack_last steps in
     let* item := traverse (data self) keys path in
     Ok (keys, last_key, item))
  with
  | Raise error => (Raise error, data self)
  | Ok (keys, last_key, item) =>
      match py_setitem item last_key value with
      | Ok container => (Ok tt, replace_at (data self) keys container)
      | Raise error =>
          match class_of error with
          | IndexError => (Raise (index_error last_key path error), data self)
          | _ => (Raise error, data self)
          end
      end
  end.

Definition get (self : t) (path : string) (default : obj) : result obj :=
  try_except (__getitem__ self path) (fun error =>
    match class_of error with
    | KeyError | IndexError => if is_not_None default then Ok default else Raise error
    | _ => Raise error
    end).

Definition pop (self : t) (path : string) (default : obj) : result obj * obj :=
  match _traverse self (root_ref (data self)) path with
  | Raise error =>
      match class_of error with
      | KeyError | IndexError =>
          if is_not_None default then (Ok default, data self) else (Raise error, data self)
      | _ => (Raise error, data self)
      end
  | Ok (parent, last_key) =>
      match py_pop (val parent) last_key with
      | Ok (item, container) => (Ok item, replace_at (data self) (loc parent) container)
      | Raise error =>
          match class_of error with
          | IndexError =>
              if is_not_None default then (Ok default, data self)
              else (Raise (index_error last_key path error), data self)
          | KeyError =>
              if is_not_None default then (Ok default, data self)
              else (Raise (key_error last_key path error), data self)
          | _ => (Raise error, data self)
          end
      end
  end.

(** The loop of [setdefault] over [parent_keys], threading the tree. *)
Fixpoint setdefault_loop (tree : obj) (parent : ref) (parent_keys : list string)
    (path : string) : result ref * obj :=
  match parent_keys with
  | [] => (Ok parent, tree)
  | _key :: rest =>
      match _traverse_list parent _key path with
      | Raise error => (Raise error, tree)
      | Ok (parent', _key') =>
          match subscript parent' _key' with
          | Ok child => setdefault_loop tree child rest path
          | Raise error =>
              match class_of error with
              | KeyError =>
                  let child := VDict [] in
                  match store tree parent' _key' child with
                  | Ok tree' =>
                      setdefault_loop tree' {| loc := loc parent' ++ [_key']; val := child |}
                        rest path
                  | Raise error' => (Raise error', tree)
                  end
              | IndexError => (Raise (index_error _key' path error), tree)
              | _ => (Raise error, tree)
              end
          end
      end
  end.

Definition setdefault (self : t) (path : string) (default : obj) : result obj * obj :=
  match (let* keys := py_split path (sep self) in unpack_last keys) with
  | Raise error => (Raise error, data self)
  | Ok (parent_keys, last_key) =>
      match setdefault_loop (data self) (root_ref (data self)) parent_keys path with
      | (Raise error, tree) => (Raise error, tree)
      | (Ok parent, tree) =>
          match _traverse_list parent last_key path with
          | Raise error => (Raise error, tree)
          | Ok (parent', last_key') =>
              match py_getitem (val parent') last_key' with
              | Ok item => (Ok item, tree)
              | Raise error =>
                  match class_of error with
                  | KeyError =>
                      match store tree parent' last_key' default with
                      | Ok tree' => (Ok default, tree')
                      | Raise error' => (Raise error', tree)
                      end
                  | IndexError => (Raise (index_error last_key' path error), tree)
                  | _ => (Raise error, tree)
                  end
              end
          end
      end
  end.

(** [keys], [values] and [items] are those of the dictionary wrapped; any
    other object has no such attribute. *)
Definition keys (self : t) : result (list key) :=
  match data self with
  | VDict d => Ok (fst <$> d)
  | _ => Raise (Raised AttributeError None)
  end.

Definition values (self : t) : result (list obj) :=
  match data self with
  | VDict d => Ok (snd <$> d)
  | _ => Raise (Raised AttributeError None)
  end.

Definition items (self : t) : result (list (key * obj)) :=
  match data self with
  | VDict d => Ok d
  | _ => Raise (Raised AttributeError None)
  end.

Definition fromkeys (seq : list key) (value : obj) : t :=
  __init__ (VDict (dict_fromkeys seq value)) ".".

Definition popitem (self : t) : result (key * obj) * obj :=
  match data self with
  | VDict d =>
      match dict_popitem d with
      | Some (entry, d') => (Ok entry, VDict d')
      | None => (Raise (Raised KeyError None), data self)
      end
  | _ => (Raise (Raised AttributeError None), data self)
  end.

(** The first argument of [update]: nothing, a dictionary, or an iterable
    of key and value pairs. *)
Inductive update_arg :=
| UNone
| UMapping (d : list (key * obj))
| UPairs (l : list (obj * obj)).

(** The [pairs] of [update].  A falsy [data] is replaced by a new
    dictionary; a dictionary is updated with [kwargs] and its items are
    taken; an iterable, which has no [update], is chained with the items of
    [kwargs]. *)
Definition update_pairs (data : update_arg) (kwargs : list (string * obj)) : list (obj * obj) :=
  let items d := (fun '(k, x) => (obj_of_key k, x)) <$> d in
  let kw := (fun '(name, x) => (KStr name, x)) <$> kwargs in
  match data with
  | UNone | UMapping [] | UPairs [] => items (dict_update [] kw)
  | UMapping d => items (dict_update d kw)
  | UPairs l => l ++ items kw
  end.

(** [self.__setitem__(key, value)] for a key of any type: only a string
    has the [split] that [split_path] calls. *)
Definition setitem_key (self : t) (key : obj) (value : obj) : result unit * obj :=
  match key with
  | VStr path => __setitem__ self path value
  | _ => (Raise (Raised AttributeError None), data self)
  end.

(** The loop of [update], threading the tree. *)
Fixpoint update_loop (self : t) (pairs : list (obj * obj)) : result unit * obj :=
  match pairs with
  | [] => (Ok tt, data self)
  | (key, value) :: rest =>
      match setitem_key self key value with
      | (Ok _, tree) => update_loop {| data := tree; sep := sep self |} rest
      | (Raise error, tree) => (Raise error, tree)
      end
  end.

Definition update (self : t) (data : update_arg) (kwargs : list (string * obj))
    : result unit * obj :=
  update_loop self (update_pairs data kwargs).

End Cut.

(** ** The trees of the specification's examples *)

Definition cut (d : obj) : Cut.t := {| Cut.data := d; Cut.sep := "." |}.

Definition pokemon : obj :=
  VDict [(KStr "pokemon", VList [VDict [(KStr "level", VInt 1)]])].

Definition a_b_1 : obj := VDict [(KStr "a", VDict [(KStr "b", VInt 1)])].

Definition a_1 : obj := VDict [(KStr "a", VInt 1)].

Definition a_list : obj := VDict [(KStr "a", VList [VInt 1])].

(** ** The navigator's rule, in the words of the specification

    The failure kinds of the specification and the rule by which one access
    step applies to one node, as the amended claim C2 words it; [resolve_rule]
    applies the steps left to right and stops at the first failure.  They
    are compared with [Cut.__getitem__] below. *)

Inductive failure := MissingKey | IndexOutOfRange | TypeMismatch.

Inductive outcome :=
| Found (v : obj)
| Failed (f : failure).

Definition found_or (f : failure) (o : option obj) : outcome :=
  match o with
  | Some v => Found v
  | None => Failed f
  end.

Definition apply_step (node : obj) (step : key) : outcome :=
  match node, step with
  | VDict d, _ => found_or MissingKey (dict_get step d)
  | VList l, KInt i =>
      let n := Z.of_nat (length l) in
      if decide (0 <= i < n) then found_or IndexOutOfRange (l !! Z.to_nat i)
      else if decide (- n <= i < 0) then found_or IndexOutOfRange (l !! Z.to_nat (n + i))
      else Failed IndexOutOfRange
  | VStr s, KInt i =>
      let n := Z.of_nat (String.length s) in
      let char o := (fun c => VStr (String c EmptyString)) <$> o in
      if decide (0 <= i < n) then found_or IndexOutOfRange (char (String.get (Z.to_nat i) s))
      else if decide (- n <= i < 0)
           then found_or IndexOutOfRange (char (String.get (Z.to_nat (n + i)) s))
           else Failed IndexOutOfRange
  | VList _, KStr _ | VStr _, KStr _ => Failed TypeMismatch
  | VNone, _ | VBool _, _ | VInt _, _ => Failed TypeMismatch
  end.

Fixpoint resolve_rule (node : obj) (steps : list key) : outcome :=
  match steps with
  | [] => Found node
  | step :: rest =>
      match apply_step node step with
      | Found v => resolve_rule v rest
      | Failed f => Failed f
      end
  end.

(** The failure kind of an exception class. *)
Definition failure_of_class (c : exn_class) : option failure :=
  match c with
  | KeyError => Some MissingKey
  | IndexError => Some IndexOutOfRange
  | TypeError => Some TypeMismatch
  | ValueError | AttributeError | OverflowError => None
  end.

Definition outcome_of (r : result obj) : option outcome :=
  match r with
  | Ok v => Some (Found v)
  | Raise e => Failed <$> failure_of_class (class_of e)
  end.

(** ** Auxiliary notions of the proofs *)

(** The names of the [Key] steps of a step sequence, in order. *)
Definition key_names (steps : list key) : list string :=
  omap (fun k => match k with KStr s => Some s | KInt _ => None end) steps.

(** The name of a segment: its text before the first ['[']. *)
Definition segment_name (seg : string) : string := (split_scan "[" seg 0).1.

(** [s[n:]] *)
Fixpoint skip_chars (n : nat) (s : string) : string :=
  match n, s with
  | O, _ => s
  | S k, String _ s' => skip_chars k s'
  | S _, EmptyString => EmptyString
  end.

(** The objects an assignment can change in place. *)
Definition is_container (v : obj) : Prop :=
  match v with
  | VDict _ | VList _ => True
  | _ => False
  end.

(** The two stages of [__getitem__] after the parse. *)
Definition getitem_steps (data : obj) (keys : list key) (last_key : key) (path : string)
    : result obj :=
  let* item := traverse data keys path in
  try_except (py_getitem item last_key) (fun error =>
    match class_of error with
    | KeyError => Raise (key_error last_key path error)
    | IndexError => Raise (index_error last_key path error)
    | _ => Raise error
    end).

(** A reference is valid in a tree when its subscripts lead to its object. *)
Definition valid (tree : obj) (r : ref) : Prop :=
  traverse_loop tree (loc r) = inl (val r).

(** Wherever the first tree holds a list, the second holds a list of the
    same length. *)
Definition lists_kept (tree tree' : obj) : Prop :=
  forall keys l,
    traverse_loop tree keys = inl (VList l) ->
    exists l', traverse_loop tree' keys = inl (VList l') /\ length l' = length l.

(** Wherever the first tree holds a scalar, the second holds the same. *)
Definition scalars_kept (tree tree' : obj) : Prop :=
  forall keys v,
    traverse_loop tree keys = inl v -> ~ is_container v -> traverse_loop tree' keys = inl v.

(** ** The built-ins on examples *)

Example split_dots : str_split "a.b[0]..c" "." = ["a"; "b[0]"; ""; "c"].
Proof. reflexivity. Qed.

Example split_long_sep :
  str_split "a--b---c" "--" = ["a"; "b"; "-c"] /\ str_split "aaa" "aa" = [""; "a"]
  /\ str_split "" "." = [""] /\ str_split "a." "." = ["a"; ""].
Proof. by split_and!. Qed.

Example int_examples :
  py_int <$> ["12"; " 7 "; "-1"; "+3"; "1_000"; "007"; "-0"]
    = [Some 12; Some 7; Some (-1); Some 3; Some 1000; Some 7; Some 0]
  /\ py_int <$> [""; " "; "x"; "1_"; "_1"; "1__0"; "- 1"; "+-1"; "0x1"; "1 2"; "0]"]
     = [None; None; None; None; None; None; None; None; None; None; None].
Proof. by split. Qed.

(** NEL and NBSP are white space for [int], the separators 28 to 31 are not. *)
Example int_white_space :
  py_int (String (ascii_of_nat 133) "1") = Some 1
  /\ py_int (String "1" (String (ascii_of_nat 160) "")) = Some 1
  /\ py_int (String (ascii_of_nat 11) "7") = Some 7
  /\ py_int (String (ascii_of_nat 28) "1") = None
  /\ py_int (String (ascii_of_nat 127) "1") = None.
Proof. by split_and!. Qed.

Example str_of_int_examples : str_of_int <$> [0; 5; -12] = ["0"; "5"; "-12"].
Proof. reflexivity. Qed.

(** Beyond the index type: a subscript is an [IndexError], also against a
    string assigned to or deleted from; [list.pop] is an [OverflowError]. *)
Example index_type_examples :
  py_pop (VList [VInt 1]) (KInt (2 ^ 63)) = Raise (Raised OverflowError None)
  /\ py_pop (VList [VInt 1]) (KInt (2 ^ 63 - 1)) = Raise (Raised IndexError None)
  /\ py_pop (VList [VInt 1]) (KInt (- 2 ^ 63 - 1)) = Raise (Raised OverflowError None)
  /\ py_getitem (VList [VInt 1]) (KInt (10 ^ 30)) = Raise (Raised IndexError None)
  /\ py_setitem (VStr "abc") (KInt (10 ^ 30)) VNone = Raise (Raised IndexError None)
  /\ py_setitem (VStr "abc") (KInt 0) VNone = Raise (Raised TypeError None)
  /\ py_delitem (VStr "abc") (KInt (10 ^ 30)) = Raise (Raised IndexError None)
  /\ py_delitem (VInt 1) (KInt (10 ^ 30)) = Raise (Raised TypeError None).
Proof. by split_and!. Qed.

(** The [OverflowError] of [list.pop] is not caught by [pop]: no default is
    returned for it. *)
Example pop_overflow :
  Cut.pop (cut (VDict [(KStr "l", VList [VInt 1])])) "l[1000000000000000000000000000000]" (VInt 0)
  = (Raise (Raised OverflowError None), VDict [(KStr "l", VList [VInt 1])]).
Proof. reflexivity. Qed.

Example subscript_examples :
  py_getitem (VStr "abc") (KInt (-1)) = Ok (VStr "c")
  /\ py_getitem (VStr "abc") (KInt 5) = Raise (Raised IndexError None)
  /\ py_getitem (VDict [(KStr "b", VInt 1)]) (KInt 0) = Raise (Raised KeyError (Some (KInt 0)))
  /\ py_getitem (VList [VInt 1]) (KStr "a") = Raise (Raised TypeError None)
  /\ py_getitem (VBool true) (KInt 0) = Raise (Raised TypeError None).
Proof. by split_and!. Qed.

(** ** Facts about the built-ins *)

Section Splitting.

Lemma prefix_bracket c s :
  String.prefix "[" (String c s) = Ascii.eqb c "[".
Proof.
  cbn [String.prefix].
  destruct (Ascii.eqb_spec c "[") as [Heq|Hneq], (ascii_dec "[" c) as [He|Hne];
    try congruence; by destruct s.
Qed.

Lemma contains_char_cons c a s :
  contains_char c (String a s) = false <-> a <> c /\ contains_char c s = false.
Proof.
  simpl. destruct (Ascii.eqb_spec a c); split; try done; intros []; try done.
Qed.

(** A string without ['['] is its own and only piece. *)
Lemma split_scan_bracket_free s :
  contains_char "[" s = false -> split_scan "[" s 0 = (s, []).
Proof.
  induction s as [|c s IH]; [done|].
  intros [Hc Hs]%contains_char_cons.
  cbn [split_scan]. rewrite prefix_bracket.
  destruct (Ascii.eqb_spec c "["); [done|]. by rewrite IH.
Qed.

(** The segments of a split only hold characters of the string split. *)
Lemma split_scan_chars c sep s skip :
  contains_char c s = false ->
  contains_char c (split_scan sep s skip).1 = false
  /\ Forall (fun x => contains_char c x = false) (split_scan sep s skip).2.
Proof.
  revert skip. induction s as [|a s IH]; intros skip Hs; [by split|].
  apply contains_char_cons in Hs as [Ha Hs].
  cbn [split_scan]. destruct skip as [|k]; [|by apply IH].
  destruct (String.prefix sep (String a s)).
  - split; [done|]. cbn [snd].
    specialize (IH (String.length sep - 1)%nat Hs).
    destruct (split_scan sep s (String.length sep - 1)) as [h t].
    destruct IH. by constructor.
  - specialize (IH 0%nat Hs). destruct (split_scan sep s 0) as [h t].
    destruct IH as [Hh Ht]. split; [|done]. cbn [fst].
    by apply contains_char_cons.
Qed.

Lemma str_split_chars c sep s :
  contains_char c s = false ->
  Forall (fun x => contains_char c x = false) (str_split s sep).
Proof.
  intros Hs. unfold str_split.
  pose proof (split_scan_chars c sep s 0 Hs) as H.
  destruct (split_scan sep s 0) as [h t]. destruct H. by constructor.
Qed.

Lemma str_split_cons s sep :
  str_split s sep = (split_scan sep s 0).1 :: (split_scan sep s 0).2.
Proof. unfold str_split. by destruct (split_scan sep s 0). Qed.

Lemma append_cons c s t : String.append (String c s) t = String c (String.append s t).
Proof. reflexivity. Qed.

Lemma prefix_skip sep s :
  String.prefix sep s = true -> s = String.append sep (skip_chars (String.length sep) s).
Proof.
  revert s. induction sep as [|a sep IH]; intros s; [done|].
  destruct s as [|c s]; [done|]. cbn [String.prefix String.length skip_chars].
  destruct (ascii_dec a c) as [->|]; [|done]. intros H.
  rewrite append_cons. f_equal. by apply IH.
Qed.

Lemma str_join_cons sep x y l :
  str_join sep (x :: y :: l) = String.append x (String.append sep (str_join sep (y :: l))).
Proof. reflexivity. Qed.

Lemma str_join_cons_char sep c h t :
  str_join sep (String c h :: t) = String c (str_join sep (h :: t)).
Proof. by destruct t. Qed.

Lemma split_scan_join sep s skip :
  sep <> EmptyString ->
  str_join sep ((split_scan sep s skip).1 :: (split_scan sep s skip).2) = skip_chars skip s.
Proof.
  intros Hsep. revert skip. induction s as [|c s IH]; intros skip; [by destruct skip|].
  cbn [split_scan]. destruct skip as [|k]; [|apply IH]. cbn [skip_chars].
  destruct (String.prefix sep (String c s)) eqn:Hprefix.
  - cbn [fst snd]. specialize (IH (String.length sep - 1)%nat).
    destruct (split_scan sep s (String.length sep - 1)) as [h t]. cbn [fst snd] in IH.
    rewrite str_join_cons, IH. change (String.append EmptyString ?x) with x.
    rewrite (prefix_skip _ _ Hprefix) at 1.
    destruct sep as [|a sep]; [done|].
    f_equal. change (String.length (String a sep)) with (S (String.length sep)).
    cbn [skip_chars]. f_equal. lia.
  - specialize (IH 0%nat). destruct (split_scan sep s 0) as [h t]. cbn [fst snd] in *.
    by rewrite str_join_cons_char, IH.
Qed.

(** Joining the segments of a split with the separator gives the string
    back. *)
Lemma str_join_split s sep :
  sep <> EmptyString -> str_join sep (str_split s sep) = s.
Proof. intros Hsep. rewrite str_split_cons. by apply (split_scan_join sep s 0). Qed.

End Splitting.

(** ** Facts about the parser *)

Section Parser.

Lemma split_indexes_plain key :
  contains_char "[" key = false -> split_indexes key = Ok [KStr key].
Proof. intros H. unfold split_indexes. by rewrite split_scan_bracket_free. Qed.

Lemma extend_all_plain keys :
  Forall (fun x => contains_char "[" x = false) keys ->
  extend_all keys = Ok (KStr <$> keys).
Proof.
  induction 1 as [|key keys Hkey _ IH]; [done|].
  cbn [extend_all]. rewrite split_indexes_plain, IH by done. done.
Qed.

Lemma split_path_nonempty_sep path sep :
  sep <> EmptyString -> split_path path sep = extend_all (str_split path sep).
Proof. intros H. unfold split_path, py_split. by rewrite decide_False. Qed.

(** The loop stops at the first piece [int] rejects. *)
Lemma read_indexes_first_bad oks bad rest :
  Forall (fun p => is_Some (py_int (drop_last p))) oks ->
  py_int (drop_last bad) = None ->
  read_indexes (oks ++ bad :: rest) = inl (drop_last bad).
Proof.
  intros Hoks Hbad. induction Hoks as [|p oks [i Hi] _ IH]; cbn [read_indexes app].
  - by rewrite Hbad.
  - by rewrite Hi, IH.
Qed.

Lemma read_indexes_all_good pieces indexes :
  Forall2 (fun p i => py_int (drop_last p) = Some i) pieces indexes ->
  read_indexes pieces = inr indexes.
Proof.
  induction 1 as [|p i pieces indexes Hp _ IH]; [done|].
  cbn [read_indexes]. by rewrite Hp, IH.
Qed.

Lemma read_indexes_inl pieces index :
  read_indexes pieces = inl index ->
  exists piece, piece ∈ pieces /\ index = drop_last piece /\ py_int index = None.
Proof.
  induction pieces as [|p pieces IH]; [done|]. cbn [read_indexes].
  destruct (py_int (drop_last p)) as [i|] eqn:Hp.
  - destruct (read_indexes pieces) as [bad|good]; [|done].
    intros [= <-]. destruct (IH eq_refl) as (piece & ? & ? & ?).
    exists piece. split; [by constructor|done].
  - intros [= <-]. exists p. split; [by constructor|done].
Qed.

Lemma read_indexes_inr pieces indexes :
  read_indexes pieces = inr indexes ->
  Forall (fun p => is_Some (py_int (drop_last p))) pieces.
Proof.
  revert indexes. induction pieces as [|p pieces IH]; intros indexes; [by constructor|].
  cbn [read_indexes]. destruct (py_int (drop_last p)) as [i|] eqn:Hp; [|done].
  destruct (read_indexes pieces) as [bad|good] eqn:Hr; [done|].
  intros _. constructor; [by eexists|by eapply IH].
Qed.

(** Every exception of the parser is a [ValueError]. *)
Lemma split_indexes_raises path e :
  split_indexes path = Raise e -> class_of e = ValueError.
Proof.
  unfold split_indexes. destruct (split_scan "[" path 0) as [key [|p pieces]]; [done|].
  destruct (read_indexes (p :: pieces)); [|done].
  by destruct (_ && _); intros [= <-].
Qed.

Lemma extend_all_raises keys e :
  extend_all keys = Raise e -> class_of e = ValueError.
Proof.
  induction keys as [|key keys IH]; [done|]. cbn [extend_all].
  destruct (split_indexes key) eqn:Hk; cbn [bind].
  - destruct (extend_all keys); cbn [bind]; [done|]. intros [= <-]. by apply IH.
  - intros [= <-]. by eapply split_indexes_raises.
Qed.

Lemma split_path_raises path sep e :
  split_path path sep = Raise e -> class_of e = ValueError.
Proof.
  unfold split_path, py_split. case_decide; cbn [bind].
  - by intros [= <-].
  - apply extend_all_raises.
Qed.

(** [split_path] raises what the first failing segment raises. *)
Lemma extend_all_first_bad pre seg post e :
  Forall (fun s => exists ks, split_indexes s = Ok ks) pre ->
  split_indexes seg = Raise e ->
  extend_all (pre ++ seg :: post) = Raise e.
Proof.
  intros Hpre Hseg. induction Hpre as [|s pre [ks Hs] _ IH]; cbn [extend_all app].
  - by rewrite Hseg.
  - by rewrite Hs, IH.
Qed.

Lemma split_indexes_some_bad seg piece :
  piece ∈ tail (str_split seg "[") ->
  py_int (drop_last piece) = None ->
  exists e, split_indexes seg = Raise e.
Proof.
  rewrite str_split_cons. cbn [tail]. intros Hin Hbad. unfold split_indexes.
  destruct (split_scan "[" seg 0) as [key pieces]. cbn [snd] in Hin.
  destruct pieces as [|p pieces]; [by apply elem_of_nil in Hin|].
  destruct (read_indexes (p :: pieces)) as [index|indexes] eqn:Hr.
  - destruct (_ && _); by eexists.
  - apply read_indexes_inr in Hr. rewrite Forall_forall in Hr.
    destruct (Hr piece Hin) as [i Hi]. congruence.
Qed.

Lemma split_indexes_raise_inv seg e :
  split_indexes seg = Raise e ->
  exists piece, piece ∈ tail (str_split seg "[") /\ py_int (drop_last piece) = None.
Proof.
  rewrite str_split_cons. cbn [tail]. unfold split_indexes.
  destruct (split_scan "[" seg 0) as [key pieces]. cbn [snd].
  destruct pieces as [|p pieces]; [done|].
  destruct (read_indexes (p :: pieces)) as [index|indexes] eqn:Hr; [|done].
  intros _. apply read_indexes_inl in Hr as (piece & Hin & -> & Hbad). eauto.
Qed.

Lemma extend_all_some_bad keys seg e :
  seg ∈ keys -> split_indexes seg = Raise e -> exists e', extend_all keys = Raise e'.
Proof.
  intros Hin Hseg. induction keys as [|key keys IH]; [by apply elem_of_nil in Hin|].
  cbn [extend_all]. destruct (split_indexes key) as [ks|e0] eqn:Hkey; cbn [bind]; [|by eexists].
  apply elem_of_cons in Hin as [->|Hin]; [congruence|].
  destruct (IH Hin) as [e' ->]. by eexists.
Qed.

Lemma extend_all_raise_inv keys e :
  extend_all keys = Raise e -> exists seg e', seg ∈ keys /\ split_indexes seg = Raise e'.
Proof.
  induction keys as [|key keys IH]; [done|]. cbn [extend_all].
  destruct (split_indexes key) as [ks|e0] eqn:Hkey; cbn [bind].
  - destruct (extend_all keys) as [r|e1]; cbn [bind]; [done|]. intros [= <-].
    destruct (IH eq_refl) as (seg & e' & Hin & Hseg).
    exists seg, e'. split; [by constructor|done].
  - intros _. exists key, e0. split; [by constructor|done].
Qed.

End Parser.

(** ** The parser: claims C8, C4 and C3 *)

(** C8: a path without ['['] parses to one [Key] step per separator-delimited
    segment, each carrying its segment verbatim and in order, so the step
    sequence is as long as the list of segments; and [a[0][1]] parses to
    [Key a, Index 0, Index 1]. *)
Theorem C8_plain_segments_are_keys path sep :
  sep <> EmptyString ->
  contains_char "[" path = false ->
  split_path path sep = Ok (KStr <$> str_split path sep)
  /\ length (KStr <$> str_split path sep) = length (str_split path sep)
  /\ split_path "a[0][1]" "." = Ok [KStr "a"; KInt 0; KInt 1].
Proof.
  intros Hsep Hpath. split_and!.
  - rewrite split_path_nonempty_sep by done.
    apply extend_all_plain. by apply str_split_chars.
  - apply length_fmap.
  - reflexivity.
Qed.

Lemma C8_witness :
  split_path "a.b..c" "." = Ok (KStr <$> str_split "a.b..c" ".")
  /\ length (KStr <$> str_split "a.b..c" ".") = length (str_split "a.b..c" ".")
  /\ split_path "a[0][1]" "." = Ok [KStr "a"; KInt 0; KInt 1].
Proof. apply (C8_plain_segments_are_keys "a.b..c" "."); [discriminate|reflexivity]. Defined.

(** C4: when [int] rejects the body of a bracket-split piece (the piece
    without its last character), the pieces and segments before it being
    accepted, the parse fails: with [IndexMustBeInteger] if the body is
    non-empty and holds no [']'], with [MissingBrackets] otherwise.  The bad
    index is never skipped. *)
Theorem C4_parse_failure_policy path sep pre seg post key oks bad rest :
  sep <> EmptyString ->
  str_split path sep = pre ++ seg :: post ->
  Forall (fun s => exists ks, split_indexes s = Ok ks) pre ->
  str_split seg "[" = key :: oks ++ bad :: rest ->
  Forall (fun p => is_Some (py_int (drop_last p))) oks ->
  py_int (drop_last bad) = None ->
  split_path path sep =
    Raise (if negb (String.eqb (drop_last bad) EmptyString)
              && negb (contains_char "]" (drop_last bad))
           then IndexMustBeInteger (drop_last bad) seg
           else MissingBrackets seg).
Proof.
  intros Hsep Hsegs Hpre Hpieces Hoks Hbad.
  rewrite split_path_nonempty_sep, Hsegs by done.
  apply extend_all_first_bad; [done|].
  unfold split_indexes. rewrite str_split_cons in Hpieces.
  destruct (split_scan "[" seg 0) as [k pieces]. injection Hpieces as -> ->.
  rewrite read_indexes_first_bad by done.
  destruct oks; cbn [app]; by destruct (_ && _).
Qed.

Lemma C4_witness :
  split_path "p[0].a[1][x]" "." = Raise (IndexMustBeInteger "x" "a[1][x]")
  /\ split_path "a[0" "." = Raise (MissingBrackets "a[0")
  /\ split_path "a[]" "." = Raise (MissingBrackets "a[]")
  /\ split_path "a[1]]" "." = Raise (MissingBrackets "a[1]]").
Proof.
  split_and!.
  - apply (C4_parse_failure_policy "p[0].a[1][x]" "." ["p[0]"] "a[1][x]" [] "a" ["1]"] "x]" []);
      try done; repeat constructor; by eexists.
  - apply (C4_parse_failure_policy "a[0" "." [] "a[0" [] "a" [] "0" []);
      try done; repeat constructor.
  - apply (C4_parse_failure_policy "a[]" "." [] "a[]" [] "a" [] "]" []);
      try done; repeat constructor.
  - apply (C4_parse_failure_policy "a[1]]" "." [] "a[1]]" [] "a" [] "1]]" []);
      try done; repeat constructor.
Defined.

(** C3 as stated fails: [a[-1]] parses, to an [Index] step of [-1]. *)
Lemma C3_counterexample :
  split_path "a[-1]" "." = Ok [KStr "a"; KInt (-1)]
  /\ ~ (exists e, split_path "a[-1]" "." = Raise e).
Proof. split; [reflexivity|]. by intros [e He]. Qed.

(** C3, amended: the parse fails, with a [ValueError], exactly when [int]
    rejects the body of some bracketed piece; every literal [int] accepts,
    signed ones included, becomes the [Index] step of its value, so that
    [a[-1]] parses to [Key a, Index (-1)]. *)
Theorem C3_index_literals_are_those_of_int path sep :
  sep <> EmptyString ->
  ((exists seg piece, seg ∈ str_split path sep /\ piece ∈ tail (str_split seg "[")
                      /\ py_int (drop_last piece) = None)
   <-> exists e, split_path path sep = Raise e /\ class_of e = ValueError)
  /\ (forall seg key pieces indexes,
        str_split seg "[" = key :: pieces ->
        Forall2 (fun p i => py_int (drop_last p) = Some i) pieces indexes ->
        split_indexes seg = Ok (KStr key :: (KInt <$> indexes)))
  /\ split_path "a[-1]" "." = Ok [KStr "a"; KInt (-1)].
Proof.
  intros Hsep. rewrite split_path_nonempty_sep by done. split_and!.
  - split.
    + intros (seg & piece & Hseg & Hpiece & Hbad).
      destruct (split_indexes_some_bad seg piece Hpiece Hbad) as [e He].
      destruct (extend_all_some_bad _ _ _ Hseg He) as [e' He'].
      exists e'. split; [done|]. by eapply extend_all_raises.
    + intros (e & He & _).
      apply extend_all_raise_inv in He as (seg & e' & Hseg & He').
      apply split_indexes_raise_inv in He' as (piece & ? & ?). eauto.
  - intros seg key pieces indexes Hsplit Hall.
    rewrite str_split_cons in Hsplit. unfold split_indexes.
    destruct (split_scan "[" seg 0) as [k ps]. injection Hsplit as -> ->.
    rewrite (read_indexes_all_good _ _ Hall).
    destruct Hall; done.
  - reflexivity.
Qed.

Lemma C3_witness :
  ((exists seg piece, seg ∈ str_split "a[-1].b[x]" "." /\ piece ∈ tail (str_split seg "[")
                      /\ py_int (drop_last piece) = None)
   <-> exists e, split_path "a[-1].b[x]" "." = Raise e /\ class_of e = ValueError)
  /\ (forall seg key pieces indexes,
        str_split seg "[" = key :: pieces ->
        Forall2 (fun p i => py_int (drop_last p) = Some i) pieces indexes ->
        split_indexes seg = Ok (KStr key :: (KInt <$> indexes)))
  /\ split_path "a[-1]" "." = Ok [KStr "a"; KInt (-1)].
Proof. apply (C3_index_literals_are_those_of_int "a[-1].b[x]" "."). discriminate. Defined.

(** ** Facts about subscripts *)

Section Subscripts.

Lemma norm_index_Some i n k :
  norm_index i n = Some k ->
  (k < n)%nat /\ ((0 <= i < Z.of_nat n /\ k = Z.to_nat i)
                  \/ (- Z.of_nat n <= i < 0 /\ k = Z.to_nat (Z.of_nat n + i))).
Proof.
  unfold norm_index. destruct (Z.ltb_spec i 0) as [Hneg|Hpos];
    match goal with |- context [?a && ?b] => destruct (a && b) eqn:Hb end;
    try done; intros [= <-];
    apply andb_true_iff in Hb as [?%Z.leb_le ?%Z.ltb_lt].
  - split; [lia|]. right. split; [lia|]. f_equal. lia.
  - split; [lia|]. left. split; [lia|done].
Qed.

Lemma norm_index_None i n :
  norm_index i n = None -> ~ (0 <= i < Z.of_nat n) /\ ~ (- Z.of_nat n <= i < 0).
Proof.
  unfold norm_index. destruct (Z.ltb_spec i 0) as [Hneg|Hpos];
    match goal with |- context [?a && ?b] => destruct (a && b) eqn:Hb end;
    try done; intros _;
    apply andb_false_iff in Hb as [?%Z.leb_gt|?%Z.ltb_ge]; lia.
Qed.

Lemma string_get_lt n s : (n < String.length s)%nat -> is_Some (String.get n s).
Proof.
  revert n. induction s as [|c s IH]; intros n; cbn [String.length String.get]; [lia|].
  destruct n; [by eexists|]. intros. apply IH. lia.
Qed.

(** The interpreter's subscript follows the rule. *)
Lemma py_getitem_rule v k : outcome_of (py_getitem v k) = Some (apply_step v k).
Proof.
  destruct v as [|b|z|s|l|d], k as [key|i]; try done; cbn [py_getitem apply_step].
  - destruct (norm_index i (String.length s)) as [n|] eqn:Hn.
    + apply norm_index_Some in Hn as [Hlt Hn].
      destruct (string_get_lt _ _ Hlt) as [c Hc]. rewrite Hc.
      destruct Hn as [[Hi ->]|[Hi ->]].
      * rewrite decide_True by done. by rewrite Hc.
      * rewrite decide_False, decide_True by lia. by rewrite Hc.
    + apply norm_index_None in Hn as [? ?]. by rewrite !decide_False.
  - destruct (norm_index i (length l)) as [n|] eqn:Hn.
    + apply norm_index_Some in Hn as [Hlt Hn].
      destruct (lookup_lt_is_Some_2 l n Hlt) as [x Hx]. rewrite Hx.
      destruct Hn as [[Hi ->]|[Hi ->]].
      * rewrite decide_True by done. by rewrite Hx.
      * rewrite decide_False, decide_True by lia. by rewrite Hx.
    + apply norm_index_None in Hn as [? ?]. by rewrite !decide_False.
  - by destruct (dict_get (KStr key) d).
  - by destruct (dict_get (KInt i) d).
Qed.

(** What a failed subscript raises comes from the interpreter. *)
Lemma py_getitem_raises v k e :
  py_getitem v k = Raise e ->
  e = Raised (class_of e) (failing_key_of e)
  /\ (class_of e = KeyError \/ class_of e = IndexError \/ class_of e = TypeError).
Proof.
  destruct v as [|b|z|s|l|d], k as [key|i]; cbn [py_getitem];
    repeat (match goal with |- context [match ?x with _ => _ end] => destruct x end);
    try done; intros [= <-]; cbn; auto.
Qed.

End Subscripts.

(** ** Facts about [traverse] and [__getitem__] *)

Section Getitem.

Lemma unpack_last_snoc {A} (init : list A) (last : A) :
  unpack_last (init ++ [last]) = Ok (init, last).
Proof.
  induction init as [|x init IH]; [done|].
  cbn [app unpack_last]. rewrite IH. by destruct init.
Qed.

Lemma unpack_last_nonempty {A} (l : list A) :
  l <> [] -> exists init last, l = init ++ [last].
Proof. destruct l as [|x l _] using rev_ind; [done|eauto]. Qed.

Lemma split_indexes_nonempty path steps : split_indexes path = Ok steps -> steps <> [].
Proof.
  unfold split_indexes. destruct (split_scan "[" path 0) as [key [|p ps]].
  - by intros [= <-].
  - destruct (read_indexes (p :: ps)); [by destruct (_ && _)|by intros [= <-]].
Qed.

(** The specification's invariant: a parse never yields an empty sequence. *)
Lemma split_path_nonempty path sep steps : split_path path sep = Ok steps -> steps <> [].
Proof.
  unfold split_path, py_split. case_decide; [done|]. cbn [bind].
  rewrite str_split_cons. cbn [extend_all].
  destruct (split_indexes _) as [ks|] eqn:Hks; cbn [bind]; [|done].
  destruct (extend_all _); cbn [bind]; [|done]. intros [= <-].
  apply split_indexes_nonempty in Hks. by destruct ks.
Qed.

Lemma traverse_nil data path : traverse data [] path = Ok data.
Proof. done. Qed.

Lemma traverse_cons data key keys path :
  traverse data (key :: keys) path =
    match py_getitem data key with
    | Ok v => traverse v keys path
    | Raise e =>
        match class_of e with
        | TypeError => Raise (NotDictOrList key path)
        | _ => Raise e
        end
    end.
Proof. unfold traverse. cbn [traverse_loop]. by destruct (py_getitem data key). Qed.

Lemma getitem_unfold self path keys last_key :
  split_path path (Cut.sep self) = Ok (keys ++ [last_key]) ->
  Cut.__getitem__ self path = getitem_steps (Cut.data self) keys last_key path.
Proof.
  intros H. unfold Cut.__getitem__. rewrite H. cbn [bind].
  by rewrite unpack_last_snoc.
Qed.

Lemma getitem_steps_rule data keys last_key path :
  outcome_of (getitem_steps data keys last_key path)
  = Some (resolve_rule data (keys ++ [last_key])).
Proof.
  revert data. induction keys as [|key keys IH]; intros data; unfold getitem_steps.
  - rewrite traverse_nil. cbn [bind app resolve_rule].
    pose proof (py_getitem_rule data last_key) as Hrule.
    destruct (py_getitem data last_key) as [v|e] eqn:Hget; cbn [try_except].
    + injection Hrule as <-. done.
    + cbn [outcome_of] in Hrule.
      destruct (class_of e) eqn:Hc; cbn in Hrule |- *; rewrite ?Hc; cbn;
        try done; by injection Hrule as <-.
  - rewrite traverse_cons. cbn [app resolve_rule].
    pose proof (py_getitem_rule data key) as Hrule.
    destruct (py_getitem data key) as [v|e] eqn:Hget.
    + injection Hrule as <-. apply IH.
    + cbn [outcome_of] in Hrule.
      destruct (class_of e) eqn:Hc; cbn in Hrule |- *; rewrite ?Hc; cbn;
        try done; by injection Hrule as <-.
Qed.

End Getitem.

(** ** The navigator: claims C1 and C2 *)

(** C1, at the input the claim names: resolving [pokemon[5].level] raises the
    interpreter's own [IndexError], which quotes neither the path nor the
    index, because [traverse] wraps a [TypeError] only; the same path given
    to [__delitem__], which walks with [_traverse], raises the wrapped
    error that names index 5 and the full path. *)
Theorem C1_intermediate_index_error_is_bare :
  Cut.__getitem__ (cut pokemon) "pokemon[5].level" = Raise (Raised IndexError None)
  /\ original_path_of (Raised IndexError None) = None
  /\ failing_key_of (Raised IndexError None) = None
  /\ (Cut.__delitem__ (cut pokemon) "pokemon[5].level").1
     = Raise (IndexErrorAt (KInt 5) "pokemon[5].level" (Raised IndexError None)).
Proof. by split_and!. Qed.

(** C2 as stated fails: an [Index] step against a keyed container is a
    dictionary lookup of the integer, whose failure is a [KeyError]. *)
Lemma C2_counterexample :
  Cut.__getitem__ (cut a_b_1) "a[0]"
    = Raise (KeyErrorAt (KInt 0) "a[0]" (Raised KeyError (Some (KInt 0))))
  /\ ~ (exists e, Cut.__getitem__ (cut a_b_1) "a[0]" = Raise e /\ class_of e = TypeError).
Proof. split; [reflexivity|]. by intros (e & [= <-] & ?). Qed.

(** C2, amended: on every parsed path, [__getitem__] returns the value, or
    fails with the kind, that the amended step rule [apply_step] gives when
    applied step by step from the root: a step against a keyed container is
    a lookup of the step as a key ([MissingKey] when absent); an [Index] step
    against an ordered container or a string takes position [i], or
    [len + i] for a negative [i] ([IndexOutOfRange] outside [[-len, len)]);
    every other combination is a [TypeMismatch].  The two examples of the
    claim hold. *)
Theorem C2_getitem_follows_step_rule data sep path steps :
  split_path path sep = Ok steps ->
  outcome_of (Cut.__getitem__ {| Cut.data := data; Cut.sep := sep |} path)
    = Some (resolve_rule data steps)
  /\ Cut.__getitem__ (cut a_b_1) "a.c"
     = Raise (KeyErrorAt (KStr "c") "a.c" (Raised KeyError (Some (KStr "c"))))
  /\ (exists e, Cut.__getitem__ (cut a_1) "a[0]" = Raise e /\ class_of e = TypeError).
Proof.
  intros Hparse. split_and!.
  - destruct (unpack_last_nonempty steps) as (keys & last_key & ->);
      [by eapply split_path_nonempty|].
    rewrite (getitem_unfold _ _ keys last_key) by done.
    apply getitem_steps_rule.
  - reflexivity.
  - by eexists.
Qed.

Lemma C2_witness :
  outcome_of (Cut.__getitem__ {| Cut.data := pokemon; Cut.sep := "." |} "pokemon[-1].level")
    = Some (resolve_rule pokemon [KStr "pokemon"; KInt (-1); KStr "level"])
  /\ Cut.__getitem__ (cut a_b_1) "a.c"
     = Raise (KeyErrorAt (KStr "c") "a.c" (Raised KeyError (Some (KStr "c"))))
  /\ (exists e, Cut.__getitem__ (cut a_1) "a[0]" = Raise e /\ class_of e = TypeError).
Proof. apply (C2_getitem_follows_step_rule pokemon "." "pokemon[-1].level"). reflexivity. Defined.

(** ** Defaults: claim C7 *)

(** C7 as stated fails: the falsy default [0] is returned by [get] and by
    [pop] when the key is missing; the error is not raised again. *)
Lemma C7_counterexample :
  Cut.truthy (VInt 0) = false
  /\ Cut.__getitem__ (cut (VDict [])) "a"
     = Raise (KeyErrorAt (KStr "a") "a" (Raised KeyError (Some (KStr "a"))))
  /\ Cut.get (cut (VDict [])) "a" (VInt 0) = Ok (VInt 0)
  /\ Cut.pop (cut (VDict [])) "a" (VInt 0) = (Ok (VInt 0), VDict [])
  /\ ~ (exists e, Cut.get (cut (VDict [])) "a" (VInt 0) = Raise e)
  /\ ~ (exists e, (Cut.pop (cut (VDict [])) "a" (VInt 0)).1 = Raise e).
Proof. split_and!; try reflexivity; by intros [e He]. Qed.

(** C7, amended: only [None] stands for "no default provided".  When
    resolution fails with [MissingKey] or [IndexOutOfRange], [get] raises
    the error of [__getitem__] again if the default is [None]; [pop] then
    raises the error of the parent walk again, or the wrapped error of the
    final [pop]; and both return any other default, the falsy [0], [""] and
    [False] included, leaving the tree as it was. *)
Theorem C7_only_None_is_no_default self path default :
  (forall e,
      Cut.__getitem__ self path = Raise e ->
      class_of e = KeyError \/ class_of e = IndexError ->
      Cut.get self path VNone = Raise e
      /\ (default <> VNone -> Cut.get self path default = Ok default))
  /\ (forall e,
        Cut._traverse self (root_ref (Cut.data self)) path = Raise e ->
        class_of e = KeyError \/ class_of e = IndexError ->
        Cut.pop self path VNone = (Raise e, Cut.data self)
        /\ (default <> VNone -> Cut.pop self path default = (Ok default, Cut.data self)))
  /\ (forall parent last_key e,
        Cut._traverse self (root_ref (Cut.data self)) path = Ok (parent, last_key) ->
        py_pop (val parent) last_key = Raise e ->
        class_of e = KeyError \/ class_of e = IndexError ->
        Cut.pop self path VNone
        = (Raise (match class_of e with
                  | KeyError => key_error last_key path e
                  | _ => index_error last_key path e
                  end), Cut.data self)
        /\ (default <> VNone -> Cut.pop self path default = (Ok default, Cut.data self))).
Proof.
  split_and!.
  - intros e He Hclass. unfold Cut.get. rewrite He. cbn [try_except].
    destruct Hclass as [-> | ->]; (split; [done|]); by destruct default.
  - intros e He Hclass. unfold Cut.pop. rewrite He.
    destruct Hclass as [-> | ->]; (split; [done|]); by destruct default.
  - intros parent last_key e Htraverse Hpop Hclass. unfold Cut.pop.
    rewrite Htraverse, Hpop.
    destruct Hclass as [-> | ->]; (split; [done|]); by destruct default.
Qed.

Lemma C7_witness :
  (Cut.get (cut a_b_1) "a.c" VNone
     = Raise (KeyErrorAt (KStr "c") "a.c" (Raised KeyError (Some (KStr "c"))))
   /\ Cut.get (cut a_b_1) "a.c" (VStr "") = Ok (VStr ""))
  /\ (Cut.pop (cut a_b_1) "x.c" VNone
        = (Raise (KeyErrorAt (KStr "x") "x.c" (Raised KeyError (Some (KStr "x")))), a_b_1)
      /\ Cut.pop (cut a_b_1) "x.c" (VBool false) = (Ok (VBool false), a_b_1))
  /\ (Cut.pop (cut pokemon) "pokemon[3]" VNone
        = (Raise (IndexErrorAt (KInt 3) "pokemon[3]" (Raised IndexError None)), pokemon)
      /\ Cut.pop (cut pokemon) "pokemon[3]" (VInt 0) = (Ok (VInt 0), pokemon)).
Proof.
  split; [|split].
  - destruct (C7_only_None_is_no_default (cut a_b_1) "a.c" (VStr "")) as (Hget & _ & _).
    destruct (Hget (KeyErrorAt (KStr "c") "a.c" (Raised KeyError (Some (KStr "c")))))
      as [Hnone Hdefault]; [reflexivity|by left|]. split; [exact Hnone|by apply Hdefault].
  - destruct (C7_only_None_is_no_default (cut a_b_1) "x.c" (VBool false)) as (_ & Hwalk & _).
    destruct (Hwalk (KeyErrorAt (KStr "x") "x.c" (Raised KeyError (Some (KStr "x")))))
      as [Hnone Hdefault]; [reflexivity|by left|]. split; [exact Hnone|by apply Hdefault].
  - destruct (C7_only_None_is_no_default (cut pokemon) "pokemon[3]" (VInt 0)) as (_ & _ & Hlast).
    destruct (Hlast {| loc := [KStr "pokemon"]; val := VList [VDict [(KStr "level", VInt 1)]] |}
                (KInt 3) (Raised IndexError None))
      as [Hnone Hdefault]; [reflexivity|reflexivity|by right|].
    split; [exact Hnone|by apply Hdefault].
Defined.

(** ** Malformed paths: claim C5 *)

Section Malformed.

Lemma _traverse_list_bad_last_index parent seg path key str_indexes p1 p2 :
  str_split seg "[" = key :: str_indexes ->
  str_indexes <> [] ->
  subscript parent (KStr key) = Ok p1 ->
  walk_indexes p1 (removelast str_indexes) path = Ok p2 ->
  py_int (drop_last (List.last str_indexes EmptyString)) = None ->
  _traverse_list parent seg path
  = Raise (IndexErrorAt (KStr (drop_last (List.last str_indexes EmptyString))) path
             (Raised ValueError None)).
Proof.
  intros Hsplit Hne Hkey Hwalk Hbad. rewrite str_split_cons in Hsplit.
  unfold _traverse_list. destruct (split_scan "[" seg 0) as [k ps].
  injection Hsplit as -> ->. destruct str_indexes as [|p ps]; [done|].
  rewrite Hkey. cbn [try_except bind]. rewrite Hwalk. cbn [bind].
  by rewrite Hbad.
Qed.

Lemma _traverse_last_segment self data path parent_keys last_key parent :
  py_split path (Cut.sep self) = Ok (parent_keys ++ [last_key]) ->
  walk_parents (root_ref data) parent_keys path = inl parent ->
  Cut._traverse self (root_ref data) path = _traverse_list parent last_key path.
Proof.
  intros Hsplit Hwalk. unfold Cut._traverse. rewrite Hsplit. cbn [bind].
  rewrite unpack_last_snoc. cbn [bind]. by rewrite Hwalk.
Qed.

End Malformed.

(** C5 as stated fails: [__delitem__], [pop] and [__contains__] report the
    non-integer index of the malformed path [a[x]] as an [IndexError], while
    the parser rejects the same path with a [ValueError]. *)
Lemma C5_counterexample :
  split_path "a[x]" "." = Raise (IndexMustBeInteger "x" "a[x]")
  /\ Cut.__delitem__ (cut a_list) "a[x]"
     = (Raise (IndexErrorAt (KStr "x") "a[x]" (Raised ValueError None)), a_list)
  /\ Cut.pop (cut a_list) "a[x]" VNone
     = (Raise (IndexErrorAt (KStr "x") "a[x]" (Raised ValueError None)), a_list)
  /\ Cut.__contains__ (cut a_list) "a[x]"
     = Raise (IndexErrorAt (KStr "x") "a[x]" (Raised ValueError None))
  /\ ~ (exists e, (Cut.__delitem__ (cut a_list) "a[x]").1 = Raise e /\ class_of e = ValueError).
Proof. split_and!; try reflexivity. by intros (e & [= <-] & ?). Qed.

(** C5, amended: the methods that parse the whole path with [split_path]
    ([__getitem__], [__setitem__], [get]) fail on a malformed path with the
    parser's [ValueError], whatever the tree holds and leaving it as it was.
    The parent-resolving methods ([__contains__], [__delitem__], [pop]) read
    the indices of a segment as they walk: when the name and the earlier
    indices of the last segment resolve and [int] rejects the body of its
    last bracket, they fail with the [IndexError] of [index_error], which
    carries that body and the full path. *)
Theorem C5_where_malformed_paths_fail self path :
  (forall e,
      split_path path (Cut.sep self) = Raise e ->
      class_of e = ValueError
      /\ Cut.__getitem__ self path = Raise e
      /\ (forall value, Cut.__setitem__ self path value = (Raise e, Cut.data self))
      /\ (forall default, Cut.get self path default = Raise e))
  /\ (forall parent_keys seg parent key str_indexes p1 p2,
        py_split path (Cut.sep self) = Ok (parent_keys ++ [seg]) ->
        walk_parents (root_ref (Cut.data self)) parent_keys path = inl parent ->
        str_split seg "[" = key :: str_indexes ->
        str_indexes <> [] ->
        subscript parent (KStr key) = Ok p1 ->
        walk_indexes p1 (removelast str_indexes) path = Ok p2 ->
        py_int (drop_last (List.last str_indexes EmptyString)) = None ->
        let error :=
          IndexErrorAt (KStr (drop_last (List.last str_indexes EmptyString))) path
            (Raised ValueError None) in
        Cut.__contains__ self path = Raise error
        /\ Cut.__delitem__ self path = (Raise error, Cut.data self)
        /\ Cut.pop self path VNone = (Raise error, Cut.data self)
        /\ class_of error = IndexError).
Proof.
  split.
  - intros e He. pose proof (split_path_raises _ _ _ He) as Hclass.
    assert (Cut.__getitem__ self path = Raise e) as Hget
      by (unfold Cut.__getitem__; by rewrite He).
    split_and!; [done..| |].
    + intros value. unfold Cut.__setitem__. by rewrite He.
    + intros default. unfold Cut.get. rewrite Hget. cbn [try_except]. by rewrite Hclass.
  - intros parent_keys seg parent key str_indexes p1 p2
      Hsplit Hwalk Hpieces Hne Hkey Hindexes Hbad error.
    assert (Cut._traverse self (root_ref (Cut.data self)) path = Raise error) as Htraverse.
    { rewrite (_traverse_last_segment _ _ _ _ _ _ Hsplit Hwalk).
      by eapply _traverse_list_bad_last_index. }
    unfold Cut.__contains__, Cut.__delitem__, Cut.pop. rewrite Htraverse. done.
Qed.

Lemma C5_witness :
  (class_of (IndexMustBeInteger "x" "a[x]") = ValueError
   /\ Cut.__getitem__ (cut a_list) "a[x]" = Raise (IndexMustBeInteger "x" "a[x]")
   /\ (forall value,
         Cut.__setitem__ (cut a_list) "a[x]" value
         = (Raise (IndexMustBeInteger "x" "a[x]"), a_list))
   /\ (forall default,
         Cut.get (cut a_list) "a[x]" default = Raise (IndexMustBeInteger "x" "a[x]")))
  /\ (Cut.__contains__ (cut a_list) "a[x]"
      = Raise (IndexErrorAt (KStr "x") "a[x]" (Raised ValueError None))
      /\ Cut.__delitem__ (cut a_list) "a[x]"
         = (Raise (IndexErrorAt (KStr "x") "a[x]" (Raised ValueError None)), a_list)
      /\ Cut.pop (cut a_list) "a[x]" VNone
         = (Raise (IndexErrorAt (KStr "x") "a[x]" (Raised ValueError None)), a_list)
      /\ class_of (IndexErrorAt (KStr "x") "a[x]" (Raised ValueError None)) = IndexError).
Proof.
  destruct (C5_where_malformed_paths_fail (cut a_list) "a[x]") as [Hparse Hwalk]. split.
  - apply Hparse. reflexivity.
  - apply (Hwalk [] "a[x]" (root_ref a_list) "a" ["x]"]
             {| loc := [KStr "a"]; val := VList [VInt 1] |}
             {| loc := [KStr "a"]; val := VList [VInt 1] |}); done.
Defined.

(** ** Assignment through a reference *)

(** Closes a goal whose hypothesis has a string assigned through or
    deleted from, which always raises. *)
Ltac str_store_raises k :=
  by (destruct k as [?|?]; cbn; [|match goal with |- context [fits_ssize_t ?i] =>
                                       destruct (fits_ssize_t i) end]).

Section Store.

Lemma dict_get_set_eq k x d : dict_get k (dict_set k x d) = Some x.
Proof.
  induction d as [|[k' v] d IH]; cbn [dict_set dict_get].
  - by rewrite decide_True.
  - destruct (decide (k' = k)) as [->|Hne]; cbn [dict_get].
    + by rewrite decide_True.
    + by rewrite decide_False.
Qed.

Lemma dict_get_set_ne k k' x d : k' <> k -> dict_get k' (dict_set k x d) = dict_get k' d.
Proof.
  intros Hne. induction d as [|[k0 v] d IH]; cbn [dict_set dict_get].
  - by rewrite decide_False.
  - destruct (decide (k0 = k)) as [->|Hk0]; cbn [dict_get].
    + by rewrite !decide_False.
    + destruct (decide (k0 = k')); [done|apply IH].
Qed.

Lemma norm_index_lt i n k : norm_index i n = Some k -> (k < n)%nat.
Proof. by intros [? _]%norm_index_Some. Qed.

(** Reading the subscript just assigned gives the object assigned. *)
Lemma py_setitem_getitem c k x c' : py_setitem c k x = Ok c' -> py_getitem c' k = Ok x.
Proof.
  destruct c as [|b|z|s|l|d]; try done; try str_store_raises k; cbn [py_setitem].
  - destruct k as [key|i]; [done|].
    destruct (norm_index i (length l)) as [n|] eqn:Hn; [|done].
    intros [= <-]. cbn [py_getitem]. rewrite length_insert, Hn.
    rewrite list_lookup_insert_eq; [done|]. by eapply norm_index_lt.
  - intros [= <-]. cbn [py_getitem]. by rewrite dict_get_set_eq.
Qed.

Lemma py_setitem_container c k x c' : py_setitem c k x = Ok c' -> is_container c.
Proof. destruct c; try done. str_store_raises k. Qed.

(** A subscript that can be read in a container can be assigned. *)
Lemma py_setitem_defined c k child x :
  py_getitem c k = Ok child -> is_container c -> exists c', py_setitem c k x = Ok c'.
Proof.
  destruct c as [|b|z|s|l|d]; try done; intros Hget _; cbn [py_setitem py_getitem] in *.
  - destruct k as [key|i]; [done|].
    destruct (norm_index i (length l)); [by eexists|done].
  - by eexists.
Qed.

(** Below a string there are only strings. *)
Lemma traverse_loop_str s keys item :
  traverse_loop (VStr s) keys = inl item -> exists s', item = VStr s'.
Proof.
  revert s. induction keys as [|key keys IH]; intros s; cbn [traverse_loop].
  - intros [= <-]. by eexists.
  - destruct key as [k|i]; cbn [py_getitem]; [done|].
    destruct (norm_index i (String.length s)); [|done].
    destruct (String.get _ s); [|done]. apply IH.
Qed.

Lemma traverse_loop_container data key keys item :
  traverse_loop data (key :: keys) = inl item -> is_container item -> is_container data.
Proof.
  destruct data as [|b|z|s|l|d]; try done.
  intros Hloop Hitem. cbn [traverse_loop] in Hloop.
  destruct (py_getitem (VStr s) key) as [v|] eqn:Hget; [|done].
  assert (exists s', v = VStr s') as [s' ->].
  { destruct key as [k|i]; cbn [py_getitem] in Hget; [done|].
    destruct (norm_index i (String.length s)); [|done].
    destruct (String.get _ s); [|done]. injection Hget as <-. by eexists. }
  apply traverse_loop_str in Hloop as [s'' ->]. done.
Qed.

(** After [replace_at], the same subscripts lead to the new object. *)
Lemma traverse_loop_replace_at data keys item new :
  traverse_loop data keys = inl item ->
  is_container item ->
  traverse_loop (replace_at data keys new) keys = inl new.
Proof.
  revert data. induction keys as [|key keys IH]; intros data Hloop Hitem; [done|].
  pose proof (traverse_loop_container _ _ _ _ Hloop Hitem) as Hdata.
  cbn [traverse_loop replace_at] in *.
  destruct (py_getitem data key) as [child|] eqn:Hget; [|done].
  destruct (py_setitem_defined data key child (replace_at child keys new) Hget Hdata)
    as [data' Hset].
  rewrite Hset. cbn [traverse_loop].
  rewrite (py_setitem_getitem _ _ _ _ Hset). by apply IH.
Qed.

Lemma traverse_Ok data keys path item :
  traverse data keys path = Ok item <-> traverse_loop data keys = inl item.
Proof.
  unfold traverse. destruct (traverse_loop data keys) as [v|[key e]].
  - split; by intros [= <-].
  - split; [|done]. by destruct (class_of e).
Qed.

End Store.

(** ** Read after write: claim C9 *)

(** C9: when [__setitem__] succeeds, [__getitem__] of the same path on the
    tree it leaves returns the value written. *)
Theorem C9_read_after_write self path value tree :
  Cut.__setitem__ self path value = (Ok tt, tree) ->
  Cut.__getitem__ {| Cut.data := tree; Cut.sep := Cut.sep self |} path = Ok value.
Proof.
  unfold Cut.__setitem__, Cut.__getitem__. cbn [Cut.sep Cut.data].
  destruct (split_path path (Cut.sep self)) as [steps|]; cbn [bind]; [|done].
  destruct (unpack_last steps) as [[keys last_key]|]; cbn [bind]; [|done].
  destruct (traverse (Cut.data self) keys path) as [item|] eqn:Htraverse; cbn [bind]; [|done].
  destruct (py_setitem item last_key value) as [container|error] eqn:Hset;
    [|by destruct (class_of error)].
  intros [= <-]. apply traverse_Ok in Htraverse.
  pose proof (py_setitem_container _ _ _ _ Hset) as Hitem.
  pose proof (traverse_loop_replace_at _ _ _ container Htraverse Hitem) as Hloop.
  apply traverse_Ok with (path := path) in Hloop. rewrite Hloop. cbn [bind].
  by rewrite (py_setitem_getitem _ _ _ _ Hset).
Qed.

Lemma C9_witness :
  Cut.__getitem__
    {| Cut.data := VDict [(KStr "pokemon", VList [VDict [(KStr "level", VInt 666)]])];
       Cut.sep := "." |} "pokemon[-1].level" = Ok (VInt 666).
Proof. apply (C9_read_after_write (cut pokemon) "pokemon[-1].level" (VInt 666)). reflexivity. Defined.

(** ** [setdefault]: claim C6 *)

Section Setdefault.

Lemma traverse_loop_snoc tree keys k :
  traverse_loop tree (keys ++ [k]) =
    match traverse_loop tree keys with
    | inl v => match py_getitem v k with
               | Ok child => inl child
               | Raise e => inr (k, e)
               end
    | inr failure => inr failure
    end.
Proof.
  revert tree. induction keys as [|key keys IH]; intros tree; cbn [app traverse_loop].
  - by destruct (py_getitem tree k).
  - destruct (py_getitem tree key); [apply IH|done].
Qed.

Lemma subscript_valid tree parent k child :
  valid tree parent -> subscript parent k = Ok child -> valid tree child.
Proof.
  unfold valid, subscript. intros Hparent.
  destruct (py_getitem (val parent) k) as [v|] eqn:Hget; cbn [bind]; [|done].
  intros [= <-]. cbn [loc val]. by rewrite traverse_loop_snoc, Hparent, Hget.
Qed.

Lemma walk_indexes_valid tree parent str_indexes path parent' :
  valid tree parent -> walk_indexes parent str_indexes path = Ok parent' -> valid tree parent'.
Proof.
  revert parent. induction str_indexes as [|str_index rest IH]; intros parent Hparent;
    cbn [walk_indexes].
  - by intros [= <-].
  - destruct (py_int (drop_last str_index)) as [index|]; [|done].
    destruct (subscript parent (KInt index)) as [child|error] eqn:Hsub.
    + apply IH. by eapply subscript_valid.
    + by destruct (class_of error).
Qed.

Lemma _traverse_list_valid tree parent key path parent' key' :
  valid tree parent -> _traverse_list parent key path = Ok (parent', key') -> valid tree parent'.
Proof.
  intros Hparent. unfold _traverse_list.
  destruct (split_scan "[" key 0) as [k [|p ps]]; [by intros [= <- _]|].
  destruct (subscript parent (KStr k)) as [p1|error] eqn:Hsub; cbn [try_except bind];
    [|by destruct (class_of error)].
  destruct (walk_indexes p1 _ path) as [p2|] eqn:Hwalk; cbn [bind]; [|done].
  destruct (py_int _); [|done]. intros [= <- _].
  eapply walk_indexes_valid; [|done]. by eapply subscript_valid.
Qed.

(** Only a dictionary without the key raises a [KeyError]. *)
Lemma py_getitem_KeyError v k error :
  py_getitem v k = Raise error -> class_of error = KeyError ->
  exists d, v = VDict d /\ dict_get k d = None.
Proof.
  destruct v as [|b|z|s|l|d], k as [key|i]; cbn [py_getitem];
    repeat (match goal with |- context [match ?x with _ => _ end] => destruct x eqn:? end);
    try done; try (by intros [= <-]); intros _ _; by eexists.
Qed.

(** After an assignment, another subscript reads what it read before,
    unless it names the slot assigned. *)
Lemma py_getitem_after_setitem c k0 x c' k1 c1 :
  py_setitem c k0 x = Ok c' ->
  py_getitem c k1 = Ok c1 ->
  (py_getitem c' k1 = Ok x /\ py_getitem c k0 = Ok c1) \/ py_getitem c' k1 = Ok c1.
Proof.
  destruct c as [|b|z|s|l|d]; try done; try str_store_raises k0; cbn [py_setitem].
  - destruct k0 as [key0|i0]; [done|].
    destruct (norm_index i0 (length l)) as [n0|] eqn:Hn0; [|done]. intros [= <-].
    destruct k1 as [key1|i1]; [done|]. cbn [py_getitem]. rewrite length_insert, Hn0.
    destruct (norm_index i1 (length l)) as [n1|] eqn:Hn1; [|done].
    destruct (decide (n0 = n1)) as [<-|Hne].
    + rewrite list_lookup_insert_eq by (by eapply norm_index_lt). auto.
    + rewrite list_lookup_insert_ne by done. auto.
  - intros [= <-]. cbn [py_getitem]. destruct (decide (k1 = k0)) as [->|Hne].
    + rewrite dict_get_set_eq. auto.
    + rewrite dict_get_set_ne by done. auto.
Qed.

Lemma py_setitem_list l k x c' :
  py_setitem (VList l) k x = Ok c' -> exists l', c' = VList l' /\ length l' = length l.
Proof.
  cbn [py_setitem]. destruct k as [key|i]; [done|].
  destruct (norm_index i (length l)); [|done]. intros [= <-].
  eexists. split; [done|]. apply length_insert.
Qed.

Lemma lists_kept_refl tree : lists_kept tree tree.
Proof. intros keys l H. eauto. Qed.

Lemma lists_kept_trans t1 t2 t3 : lists_kept t1 t2 -> lists_kept t2 t3 -> lists_kept t1 t3.
Proof.
  intros H12 H23 keys l H1.
  destruct (H12 _ _ H1) as (l2 & H2 & Hlen2).
  destruct (H23 _ _ H2) as (l3 & H3 & Hlen3).
  exists l3. split; [done|congruence].
Qed.

(** Replacing an object by one that keeps its lists keeps the lists of the
    whole tree. *)
Lemma replace_at_lists_kept tree keys c new :
  traverse_loop tree keys = inl c ->
  is_container c ->
  lists_kept c new ->
  lists_kept tree (replace_at tree keys new).
Proof.
  revert tree. induction keys as [|k0 keys IH]; intros tree Hloop Hc Hnew.
  - injection Hloop as ->. done.
  - pose proof (traverse_loop_container _ _ _ _ Hloop Hc) as Htree.
    cbn [traverse_loop replace_at] in *.
    destruct (py_getitem tree k0) as [child|] eqn:Hget; [|done].
    specialize (IH child Hloop Hc Hnew).
    destruct (py_setitem_defined tree k0 child (replace_at child keys new) Hget Htree)
      as [tree' Hset].
    rewrite Hset. intros [|k1 ks] l; cbn [traverse_loop].
    + intros [= ->]. apply py_setitem_list in Hset as (l' & -> & Hlen). eauto.
    + destruct (py_getitem tree k1) as [c1|] eqn:Hget1; [|done]. intros Hks.
      destruct (py_getitem_after_setitem _ _ _ _ _ _ Hset Hget1) as [[-> Hsame]| ->].
      * rewrite Hget in Hsame. injection Hsame as <-. by apply IH.
      * eauto.
Qed.

(** A new entry of a dictionary disturbs nothing below it. *)
Lemma dict_set_fresh_lists_kept k x d :
  dict_get k d = None -> lists_kept (VDict d) (VDict (dict_set k x d)).
Proof.
  intros Hfresh [|k1 ks] l; cbn [traverse_loop py_getitem]; [done|].
  destruct (dict_get k1 d) as [c1|] eqn:Hget1; [|done].
  rewrite dict_get_set_ne, Hget1 by congruence. eauto.
Qed.

(** [parent[k] = x] for a key the dictionary [parent] lacks. *)
Lemma store_fresh tree parent k x d :
  valid tree parent ->
  val parent = VDict d ->
  dict_get k d = None ->
  let tree' := replace_at tree (loc parent) (VDict (dict_set k x d)) in
  store tree parent k x = Ok tree'
  /\ lists_kept tree tree'
  /\ valid tree' {| loc := loc parent ++ [k]; val := x |}.
Proof.
  intros Hparent Hval Hfresh tree'. unfold valid in *. rewrite Hval in Hparent. split_and!.
  - unfold store. by rewrite Hval.
  - eapply replace_at_lists_kept; [done..|]. by apply dict_set_fresh_lists_kept.
  - cbn [loc val]. rewrite traverse_loop_snoc. unfold tree'.
    rewrite (traverse_loop_replace_at _ _ _ _ Hparent) by done.
    cbn [py_getitem]. by rewrite dict_get_set_eq.
Qed.

Lemma setdefault_loop_lists_kept tree parent parent_keys path r tree' :
  valid tree parent ->
  Cut.setdefault_loop tree parent parent_keys path = (r, tree') ->
  lists_kept tree tree' /\ (forall p, r = Ok p -> valid tree' p).
Proof.
  revert tree parent. induction parent_keys as [|_key rest IH]; intros tree parent Hparent;
    cbn [Cut.setdefault_loop].
  - intros [= <- <-]. split; [apply lists_kept_refl|]. by intros p [= <-].
  - destruct (_traverse_list parent _key path) as [[parent' _key']|error] eqn:Hlist;
      [|intros [= <- <-]; split; [apply lists_kept_refl|done]].
    pose proof (_traverse_list_valid _ _ _ _ _ _ Hparent Hlist) as Hparent'.
    destruct (subscript parent' _key') as [child|error] eqn:Hsub.
    { apply IH. by eapply subscript_valid. }
    unfold subscript in Hsub.
    destruct (py_getitem (val parent') _key') as [v|error'] eqn:Hget; [done|].
    injection Hsub as <-.
    destruct (class_of error') eqn:Hclass;
      try (intros [= <- <-]; split; [apply lists_kept_refl|done]).
    destruct (py_getitem_KeyError _ _ _ Hget Hclass) as (d & Hval & Hfresh).
    destruct (store_fresh tree parent' _key' (VDict []) d Hparent' Hval Hfresh)
      as (-> & Hkept & Hchild).
    intros Hloop. destruct (IH _ _ Hchild Hloop) as [Hkept' Hvalid].
    split; [by eapply lists_kept_trans|done].
Qed.

Lemma setdefault_lists_kept self path default r tree' :
  Cut.setdefault self path default = (r, tree') -> lists_kept (Cut.data self) tree'.
Proof.
  unfold Cut.setdefault.
  destruct (let* keys := py_split path (Cut.sep self) in unpack_last keys)
    as [[parent_keys last_key]|error]; [|intros [= <- <-]; apply lists_kept_refl].
  destruct (Cut.setdefault_loop _ _ parent_keys path) as [[parent|error] tree] eqn:Hloop.
  2: { apply setdefault_loop_lists_kept in Hloop as [Hkept _]; [|done].
       by intros [= <- <-]. }
  apply setdefault_loop_lists_kept in Hloop as [Hkept Hparent]; [|done].
  specialize (Hparent _ eq_refl).
  destruct (_traverse_list parent last_key path) as [[parent' last_key']|error] eqn:Hlist;
    [|by intros [= <- <-]].
  pose proof (_traverse_list_valid _ _ _ _ _ _ Hparent Hlist) as Hparent'.
  destruct (py_getitem (val parent') last_key') as [item|error] eqn:Hget;
    [by intros [= <- <-]|].
  destruct (class_of error) eqn:Hclass; try (by intros [= <- <-]).
  destruct (py_getitem_KeyError _ _ _ Hget Hclass) as (d & Hval & Hfresh).
  destruct (store_fresh tree parent' last_key' default d Hparent' Hval Hfresh)
    as (-> & Hkept' & _).
  intros [= <- <-]. by eapply lists_kept_trans.
Qed.

End Setdefault.

(** C6 as stated fails: on the empty tree and the path [a[0].b], the missing
    key of the intermediate [Key] step [a] is a hard failure, and no
    container is created at [a]. *)
Lemma C6_counterexample :
  Cut.setdefault (cut (VDict [])) "a[0].b" (VInt 1)
    = (Raise (KeyErrorAt (KStr "a") "a[0].b" (Raised KeyError (Some (KStr "a")))), VDict [])
  /\ ~ (exists r tree',
          Cut.setdefault (cut (VDict [])) "a[0].b" (VInt 1) = (r, tree')
          /\ py_getitem tree' (KStr "a") = Ok (VDict [])).
Proof. split; [reflexivity|]. by intros (r & tree' & [= <- <-] & ?). Qed.

(** C6, amended: [setdefault] on the empty tree with the path [a.b.c]
    creates empty dictionaries at [a] and [a.b], stores the default at key
    [c] of the latter and returns it.  In every walk of [setdefault], a
    segment without brackets whose key the current dictionary lacks makes
    the loop create an empty dictionary under that key and go on from it; a
    segment [name[i]...] whose name is missing is a hard [KeyError] that
    creates nothing, as is every failure of [_traverse_list]; an
    [IndexError] on an intermediate [Index] step is a hard failure that
    leaves the tree as it was; and whatever the call does, every list of the
    tree keeps its length. *)
Theorem C6_setdefault_creates_dictionaries_only :
  (forall default,
      Cut.setdefault (cut (VDict [])) "a.b.c" default
      = (Ok default,
         VDict [(KStr "a", VDict [(KStr "b", VDict [(KStr "c", default)])])]))
  /\ (forall tree parent seg rest path d,
        contains_char "[" seg = false ->
        valid tree parent ->
        val parent = VDict d ->
        dict_get (KStr seg) d = None ->
        let tree' := replace_at tree (loc parent) (VDict (dict_set (KStr seg) (VDict []) d)) in
        let child := {| loc := loc parent ++ [KStr seg]; val := VDict [] |} in
        Cut.setdefault_loop tree parent (seg :: rest) path
          = Cut.setdefault_loop tree' child rest path
        /\ valid tree' child)
  /\ (forall tree parent seg rest path key pieces d,
        str_split seg "[" = key :: pieces ->
        pieces <> [] ->
        val parent = VDict d ->
        dict_get (KStr key) d = None ->
        Cut.setdefault_loop tree parent (seg :: rest) path
          = (Raise (KeyErrorAt (KStr key) path (Raised KeyError (Some (KStr key)))), tree))
  /\ (forall tree parent seg rest path error,
        _traverse_list parent seg path = Raise error ->
        Cut.setdefault_loop tree parent (seg :: rest) path = (Raise error, tree))
  /\ (forall tree parent seg rest path parent' index error,
        _traverse_list parent seg path = Ok (parent', KInt index) ->
        py_getitem (val parent') (KInt index) = Raise error ->
        class_of error = IndexError ->
        Cut.setdefault_loop tree parent (seg :: rest) path
          = (Raise (IndexErrorAt (KInt index) path error), tree))
  /\ (forall self path default r tree',
        Cut.setdefault self path default = (r, tree') ->
        lists_kept (Cut.data self) tree').
Proof.
  split_and!.
  - intros default. reflexivity.
  - intros tree parent seg rest path d Hplain Hparent Hval Hfresh tree' child.
    destruct (store_fresh tree parent (KStr seg) (VDict []) d Hparent Hval Hfresh)
      as (Hstore & _ & Hchild).
    split; [|done]. cbn [Cut.setdefault_loop]. unfold _traverse_list.
    rewrite split_scan_bracket_free by done. unfold subscript.
    rewrite Hval. cbn [py_getitem]. rewrite Hfresh. cbn [bind class_of].
    by rewrite Hstore.
  - intros tree parent seg rest path key pieces d Hsplit Hpieces Hval Hfresh.
    rewrite str_split_cons in Hsplit. cbn [Cut.setdefault_loop]. unfold _traverse_list.
    destruct (split_scan "[" seg 0) as [k ps]. injection Hsplit as -> ->.
    destruct pieces as [|p ps]; [done|]. unfold subscript.
    rewrite Hval. cbn [py_getitem]. by rewrite Hfresh.
  - intros tree parent seg rest path error Hlist.
    cbn [Cut.setdefault_loop]. by rewrite Hlist.
  - intros tree parent seg rest path parent' index error Hlist Hget Hclass.
    cbn [Cut.setdefault_loop]. rewrite Hlist. unfold subscript.
    rewrite Hget. cbn [bind]. by rewrite Hclass.
  - apply setdefault_lists_kept.
Qed.

Lemma C6_witness :
  Cut.setdefault_loop (VDict []) (root_ref (VDict [])) ["a"; "b"] "a.b.c"
    = Cut.setdefault_loop (VDict [(KStr "a", VDict [])])
        {| loc := [KStr "a"]; val := VDict [] |} ["b"] "a.b.c"
  /\ Cut.setdefault_loop (VDict []) (root_ref (VDict [])) ["a[0]"] "a[0].b"
     = (Raise (KeyErrorAt (KStr "a") "a[0].b" (Raised KeyError (Some (KStr "a")))), VDict [])
  /\ Cut.setdefault_loop pokemon (root_ref pokemon) ["pokemon[5]"] "pokemon[5].level"
     = (Raise (IndexErrorAt (KInt 5) "pokemon[5].level" (Raised IndexError None)), pokemon)
  /\ lists_kept pokemon (Cut.setdefault (cut pokemon) "pokemon[0].hp.max" (VInt 9)).2.
Proof.
  destruct C6_setdefault_creates_dictionaries_only
    as (_ & Hcreate & Hmissing & _ & Hindex & Hlists).
  split_and!.
  - apply (Hcreate (VDict []) (root_ref (VDict [])) "a" ["b"] "a.b.c" []); done.
  - apply (Hmissing (VDict []) (root_ref (VDict [])) "a[0]" [] "a[0].b" "a" ["0]"] []); done.
  - apply (Hindex pokemon (root_ref pokemon) "pokemon[5]" [] "pokemon[5].level"
             {| loc := [KStr "pokemon"];
                val := VList [VDict [(KStr "level", VInt 1)]] |} 5 (Raised IndexError None));
      done.
  - apply (Hlists (cut pokemon) "pokemon[0].hp.max" (VInt 9)
             (Cut.setdefault (cut pokemon) "pokemon[0].hp.max" (VInt 9)).1).
    reflexivity.
Defined.

(** ** The two navigators agree *)

Section Agreement.

Lemma traverse_loop_app tree keys keys' :
  traverse_loop tree (keys ++ keys') =
    match traverse_loop tree keys with
    | inl v => traverse_loop v keys'
    | inr failure => inr failure
    end.
Proof.
  revert tree. induction keys as [|key keys IH]; intros tree; cbn [app traverse_loop]; [done|].
  destruct (py_getitem tree key); [apply IH|done].
Qed.

Lemma read_indexes_app pieces pieces' :
  read_indexes (pieces ++ pieces') =
    match read_indexes pieces with
    | inl bad => inl bad
    | inr indexes =>
        match read_indexes pieces' with
        | inl bad => inl bad
        | inr indexes' => inr (indexes ++ indexes')
        end
    end.
Proof.
  induction pieces as [|p pieces IH]; cbn [app read_indexes].
  - by destruct (read_indexes pieces').
  - destruct (py_int (drop_last p)); [|done]. rewrite IH.
    destruct (read_indexes pieces); [done|]. by destruct (read_indexes pieces').
Qed.

Lemma extend_all_app segs segs' :
  extend_all (segs ++ segs') =
    let* steps := extend_all segs in
    let* steps' := extend_all segs' in
    Ok (steps ++ steps').
Proof.
  induction segs as [|seg segs IH]; cbn [app extend_all bind].
  - by destruct (extend_all segs').
  - destruct (split_indexes seg); cbn [bind]; [|done]. rewrite IH.
    destruct (extend_all segs); cbn [bind]; [|done].
    destruct (extend_all segs'); cbn [bind]; [|done]. by rewrite app_assoc.
Qed.

Lemma extend_all_singleton seg : extend_all [seg] = split_indexes seg.
Proof.
  cbn [extend_all]. destruct (split_indexes seg); cbn [bind]; [|done]. by rewrite app_nil_r.
Qed.

Lemma ref_eta r : {| loc := loc r ++ []; val := val r |} = r.
Proof. destruct r. cbn. by rewrite app_nil_r. Qed.

(** [walk_indexes] reads the pieces as [read_indexes] does and subscripts
    with each index in turn. *)
Lemma walk_indexes_Ok parent pieces path parent' :
  walk_indexes parent pieces path = Ok parent' ->
  exists indexes,
    read_indexes pieces = inr indexes
    /\ loc parent' = loc parent ++ (KInt <$> indexes)
    /\ traverse_loop (val parent) (KInt <$> indexes) = inl (val parent').
Proof.
  revert parent. induction pieces as [|p pieces IH]; intros parent; cbn [walk_indexes].
  - intros [= <-]. exists []. by rewrite app_nil_r.
  - cbn [read_indexes]. destruct (py_int (drop_last p)) as [index|]; [|done].
    unfold subscript.
    destruct (py_getitem (val parent) (KInt index)) as [v|error] eqn:Hget; cbn [bind];
      [|by destruct (class_of error)].
    intros (indexes & -> & Hloc & Hloop)%IH. cbn [loc val] in *.
    exists (index :: indexes). split_and!; [done| |].
    + by rewrite Hloc, <- app_assoc.
    + cbn [fmap list_fmap traverse_loop]. by rewrite Hget.
Qed.

Lemma walk_indexes_of_steps parent pieces path indexes v :
  read_indexes pieces = inr indexes ->
  traverse_loop (val parent) (KInt <$> indexes) = inl v ->
  walk_indexes parent pieces path = Ok {| loc := loc parent ++ (KInt <$> indexes); val := v |}.
Proof.
  revert parent indexes. induction pieces as [|p pieces IH]; intros parent indexes;
    cbn [read_indexes walk_indexes].
  - intros [= <-] [= <-]. by rewrite ref_eta.
  - destruct (py_int (drop_last p)) as [index|]; [|done].
    destruct (read_indexes pieces) as [|rest] eqn:Hrest; [done|].
    intros [= <-]. cbn [fmap list_fmap traverse_loop]. unfold subscript.
    destruct (py_getitem (val parent) (KInt index)) as [child|]; cbn [bind]; [|done].
    intros Hloop.
    rewrite (IH {| loc := loc parent ++ [KInt index]; val := child |} rest eq_refl Hloop).
    cbn [loc val]. by rewrite <- app_assoc.
Qed.

(** A successful [_traverse_list] took the steps [split_indexes] gives for
    the segment, but the last one, which it returns. *)
Lemma _traverse_list_Ok parent seg path parent' k :
  _traverse_list parent seg path = Ok (parent', k) ->
  exists init,
    split_indexes seg = Ok (init ++ [k])
    /\ loc parent' = loc parent ++ init
    /\ traverse_loop (val parent) init = inl (val parent').
Proof.
  unfold _traverse_list, split_indexes.
  destruct (split_scan "[" seg 0) as [key pieces].
  destruct pieces as [|p ps] eqn:Hpieces.
  { intros [= <- <-]. exists []. by rewrite app_nil_r. }
  rewrite <- Hpieces. assert (pieces <> []) as Hne by (by rewrite Hpieces).
  clear Hpieces p ps. pose proof (app_removelast_last EmptyString Hne) as Hsnoc.
  remember (removelast pieces) as front eqn:Hfront.
  remember (List.last pieces EmptyString) as last_piece eqn:Hlast_piece.
  clear Hfront Hlast_piece. subst pieces. unfold subscript at 1.
  destruct (py_getitem (val parent) (KStr key)) as [v|error] eqn:Hget;
    cbn [bind try_except]; [|by destruct (class_of error)].
  destruct (walk_indexes _ front path) as [p2|] eqn:Hwalk; cbn [bind]; [|done].
  destruct (py_int (drop_last last_piece)) as [last_index|] eqn:Hlast; [|done].
  intros [= <- <-].
  apply walk_indexes_Ok in Hwalk as (indexes & Hread & Hloc & Hloop). cbn [loc val] in *.
  rewrite read_indexes_app, Hread. cbn [read_indexes]. rewrite Hlast.
  exists (KStr key :: (KInt <$> indexes)). split_and!.
  - by rewrite fmap_app.
  - by rewrite Hloc, <- app_assoc.
  - cbn [traverse_loop]. by rewrite Hget.
Qed.

Lemma _traverse_list_of_steps parent seg path init k v :
  split_indexes seg = Ok (init ++ [k]) ->
  traverse_loop (val parent) init = inl v ->
  _traverse_list parent seg path = Ok ({| loc := loc parent ++ init; val := v |}, k).
Proof.
  unfold _traverse_list, split_indexes.
  destruct (split_scan "[" seg 0) as [key pieces].
  destruct pieces as [|p ps] eqn:Hpieces.
  { intros [= Hsteps]. destruct init as [|? [|? ?]]; try done.
    injection Hsteps as <-. intros [= <-]. by rewrite ref_eta. }
  rewrite <- Hpieces. assert (pieces <> []) as Hne by (by rewrite Hpieces).
  clear Hpieces p ps. pose proof (app_removelast_last EmptyString Hne) as Hsnoc.
  remember (removelast pieces) as front eqn:Hfront.
  remember (List.last pieces EmptyString) as last_piece eqn:Hlast_piece.
  clear Hfront Hlast_piece. subst pieces.
  rewrite read_indexes_app.
  destruct (read_indexes front) as [|indexes] eqn:Hread; [by destruct (_ && _)|].
  cbn [read_indexes].
  destruct (py_int (drop_last last_piece)) as [last_index|] eqn:Hlast;
    [|by destruct (_ && _)].
  intros [= Hsteps].
  assert (init = KStr key :: (KInt <$> indexes) /\ k = KInt last_index) as [-> ->].
  { rewrite fmap_app, app_comm_cons in Hsteps. cbn [fmap list_fmap] in Hsteps.
    by apply app_inj_tail in Hsteps as [<- <-]. }
  cbn [traverse_loop]. unfold subscript at 1.
  destruct (py_getitem (val parent) (KStr key)) as [child|]; cbn [bind try_except]; [|done].
  intros Hloop.
  rewrite (walk_indexes_of_steps {| loc := loc parent ++ [KStr key]; val := child |}
             _ path indexes v Hread Hloop).
  cbn [bind loc val]. by rewrite <- app_assoc.
Qed.

(** The loop of [_traverse] takes the steps [split_path] gives for the
    segments before the last. *)
Lemma walk_parents_Ok parent segs path child :
  walk_parents parent segs path = inl child ->
  exists steps,
    extend_all segs = Ok steps
    /\ loc child = loc parent ++ steps
    /\ traverse_loop (val parent) steps = inl (val child).
Proof.
  revert parent. induction segs as [|seg segs IH]; intros parent; cbn [walk_parents].
  - intros [= <-]. exists []. by rewrite app_nil_r.
  - destruct (_traverse_list parent seg path) as [[parent' k]|] eqn:Hlist; [|done].
    apply _traverse_list_Ok in Hlist as (init & Hseg & Hloc & Hloop).
    unfold subscript.
    destruct (py_getitem (val parent') k) as [v|] eqn:Hget; cbn [bind]; [|done].
    intros (steps & Hsteps & Hloc' & Hloop')%IH. cbn [loc val] in *.
    exists ((init ++ [k]) ++ steps). split_and!.
    + cbn [extend_all]. by rewrite Hseg, Hsteps.
    + by rewrite Hloc', Hloc, <- !app_assoc.
    + by rewrite !traverse_loop_app, Hloop; cbn [traverse_loop]; rewrite Hget.
Qed.

Lemma split_indexes_snoc seg steps :
  split_indexes seg = Ok steps -> exists init k, steps = init ++ [k].
Proof. intros H. apply unpack_last_nonempty. by eapply split_indexes_nonempty. Qed.

Lemma walk_parents_of_steps parent segs path steps v :
  extend_all segs = Ok steps ->
  traverse_loop (val parent) steps = inl v ->
  walk_parents parent segs path = inl {| loc := loc parent ++ steps; val := v |}.
Proof.
  revert parent steps. induction segs as [|seg segs IH]; intros parent steps;
    cbn [extend_all walk_parents].
  - intros [= <-] [= <-]. by rewrite ref_eta.
  - destruct (split_indexes seg) as [ks|] eqn:Hseg; cbn [bind]; [|done].
    destruct (extend_all segs) as [rest|] eqn:Hrest; cbn [bind]; [|done].
    intros [= <-]. destruct (split_indexes_snoc _ _ Hseg) as (init & k & ->).
    rewrite !traverse_loop_app.
    destruct (traverse_loop (val parent) init) as [v1|] eqn:Hinit; [|done].
    cbn [traverse_loop].
    destruct (py_getitem v1 k) as [v2|] eqn:Hget; [|done]. intros Hloop.
    rewrite (_traverse_list_of_steps _ _ _ _ _ _ Hseg Hinit). unfold subscript.
    cbn [val loc]. rewrite Hget. cbn [bind].
    rewrite (IH {| loc := (loc parent ++ init) ++ [k]; val := v2 |} rest eq_refl Hloop).
    cbn [loc val]. by rewrite <- !app_assoc.
Qed.

Lemma split_path_segments path sep parent_keys last_key :
  py_split path sep = Ok (parent_keys ++ [last_key]) ->
  split_path path sep =
    let* steps := extend_all parent_keys in
    let* steps' := split_indexes last_key in
    Ok (steps ++ steps').
Proof.
  intros H. unfold split_path. rewrite H. cbn [bind].
  by rewrite extend_all_app, extend_all_singleton.
Qed.

Lemma py_split_snoc path sep keys :
  py_split path sep = Ok keys -> exists parent_keys last_key, keys = parent_keys ++ [last_key].
Proof.
  unfold py_split. case_decide; [done|]. intros [= <-].
  apply unpack_last_nonempty. by rewrite str_split_cons.
Qed.

Lemma _traverse_Ok self data path parent k :
  Cut._traverse self (root_ref data) path = Ok (parent, k) ->
  split_path path (Cut.sep self) = Ok (loc parent ++ [k])
  /\ traverse_loop data (loc parent) = inl (val parent).
Proof.
  unfold Cut._traverse.
  destruct (py_split path (Cut.sep self)) as [keys|] eqn:Hsplit; cbn [bind]; [|done].
  destruct (py_split_snoc _ _ _ Hsplit) as (parent_keys & last_key & ->).
  rewrite unpack_last_snoc. cbn [bind].
  rewrite (split_path_segments _ _ _ _ Hsplit).
  destruct (walk_parents (root_ref data) parent_keys path) as [p|[sub_key error]] eqn:Hwalk;
    cbn [bind]; [|by destruct (class_of error)].
  apply walk_parents_Ok in Hwalk as (steps & -> & Hloc & Hloop).
  unfold root_ref in *. cbn [bind loc val app] in *.
  intros Hlist. apply _traverse_list_Ok in Hlist as (init & -> & Hloc' & Hloop'). cbn [bind].
  rewrite Hloc', Hloc. split; [by rewrite app_assoc|].
  by rewrite traverse_loop_app, Hloop.
Qed.

Lemma _traverse_of_steps self data path keys k v :
  split_path path (Cut.sep self) = Ok (keys ++ [k]) ->
  traverse_loop data keys = inl v ->
  Cut._traverse self (root_ref data) path = Ok ({| loc := keys; val := v |}, k).
Proof.
  unfold Cut._traverse. intros Hparse Hloop.
  destruct (py_split path (Cut.sep self)) as [segs|] eqn:Hsplit;
    [|unfold split_path in Hparse; by rewrite Hsplit in Hparse].
  destruct (py_split_snoc _ _ _ Hsplit) as (parent_keys & last_key & ->).
  cbn [bind]. rewrite unpack_last_snoc. cbn [bind].
  rewrite (split_path_segments _ _ _ _ Hsplit) in Hparse.
  destruct (extend_all parent_keys) as [steps|] eqn:Hsteps; cbn [bind] in Hparse; [|done].
  destruct (split_indexes last_key) as [steps'|] eqn:Hlast; cbn [bind] in Hparse; [|done].
  injection Hparse as Hparse.
  destruct (split_indexes_snoc _ _ Hlast) as (init & k' & ->).
  rewrite app_assoc in Hparse. apply app_inj_tail in Hparse as [<- <-].
  rewrite traverse_loop_app in Hloop.
  destruct (traverse_loop data steps) as [v1|] eqn:Hv1; [|done].
  rewrite (walk_parents_of_steps (root_ref data) _ _ _ _ Hsteps Hv1). cbn [bind].
  rewrite (_traverse_list_of_steps {| loc := loc (root_ref data) ++ steps; val := v1 |}
             _ path _ _ v Hlast Hloop).
  by cbn [loc root_ref app].
Qed.

(** What [__getitem__] returns is the object found by subscripting along
    the parsed steps. *)
Lemma getitem_Ok self path v :
  Cut.__getitem__ self path = Ok v <->
  exists keys k item,
    split_path path (Cut.sep self) = Ok (keys ++ [k])
    /\ traverse_loop (Cut.data self) keys = inl item
    /\ py_getitem item k = Ok v.
Proof.
  unfold Cut.__getitem__. split.
  - destruct (split_path path (Cut.sep self)) as [steps|] eqn:Hparse; cbn [bind]; [|done].
    destruct (unpack_last_nonempty steps) as (keys & k & ->);
      [by eapply split_path_nonempty|].
    rewrite unpack_last_snoc. cbn [bind].
    destruct (traverse (Cut.data self) keys path) as [item|] eqn:Htraverse; cbn [bind]; [|done].
    apply traverse_Ok in Htraverse.
    destruct (py_getitem item k) as [v'|error] eqn:Hget; cbn [try_except];
      [|by destruct (class_of error)].
    intros [= <-]. by exists keys, k, item.
  - intros (keys & k & item & -> & Hloop & Hget). cbn [bind].
    rewrite unpack_last_snoc. cbn [bind].
    apply traverse_Ok with (path := path) in Hloop. rewrite Hloop. cbn [bind].
    by rewrite Hget.
Qed.

End Agreement.

(** ** Containment: claim C10 *)

Section Containment.

Lemma walk_indexes_raises parent pieces path indexes e :
  read_indexes pieces = inr indexes ->
  walk_indexes parent pieces path = Raise e ->
  class_of e = KeyError \/ class_of e = IndexError \/ class_of e = TypeError.
Proof.
  revert parent indexes. induction pieces as [|p pieces IH]; intros parent indexes;
    cbn [read_indexes walk_indexes]; [done|].
  destruct (py_int (drop_last p)) as [index|]; [|done].
  destruct (read_indexes pieces) as [|rest] eqn:Hrest; [done|]. intros _.
  unfold subscript.
  destruct (py_getitem (val parent) (KInt index)) as [v|error] eqn:Hget; cbn [bind].
  - by apply (IH _ rest).
  - apply py_getitem_raises in Hget as [_ Hclass].
    destruct (class_of error) eqn:Herror; intros [= <-]; cbn; rewrite ?Herror; tauto.
Qed.

(** On a segment that parses, [_traverse_list] can only fail at a
    subscript. *)
Lemma _traverse_list_raises parent seg path steps e :
  split_indexes seg = Ok steps ->
  _traverse_list parent seg path = Raise e ->
  class_of e = KeyError \/ class_of e = IndexError \/ class_of e = TypeError.
Proof.
  unfold _traverse_list, split_indexes.
  destruct (split_scan "[" seg 0) as [key pieces].
  destruct pieces as [|p ps] eqn:Hpieces; [done|].
  rewrite <- Hpieces. assert (pieces <> []) as Hne by (by rewrite Hpieces).
  clear Hpieces p ps. pose proof (app_removelast_last EmptyString Hne) as Hsnoc.
  remember (removelast pieces) as front eqn:Hfront.
  remember (List.last pieces EmptyString) as last_piece eqn:Hlast_piece.
  clear Hfront Hlast_piece. subst pieces.
  rewrite read_indexes_app.
  destruct (read_indexes front) as [|indexes] eqn:Hread; [by destruct (_ && _)|].
  cbn [read_indexes].
  destruct (py_int (drop_last last_piece)) as [last_index|]; [|by destruct (_ && _)].
  intros _. unfold subscript at 1.
  destruct (py_getitem (val parent) (KStr key)) as [v|error] eqn:Hget;
    cbn [bind try_except].
  - destruct (walk_indexes _ front path) as [p2|error] eqn:Hwalk; cbn [bind]; [done|].
    intros [= <-]. by eapply walk_indexes_raises.
  - apply py_getitem_raises in Hget as [_ Hclass].
    destruct (class_of error) eqn:Herror; intros [= <-]; cbn; rewrite ?Herror; tauto.
Qed.

Lemma walk_parents_raises parent segs path steps sub_key e :
  extend_all segs = Ok steps ->
  walk_parents parent segs path = inr (sub_key, e) ->
  class_of e = KeyError \/ class_of e = IndexError \/ class_of e = TypeError.
Proof.
  revert parent steps. induction segs as [|seg segs IH]; intros parent steps;
    cbn [extend_all walk_parents]; [done|].
  destruct (split_indexes seg) as [ks|] eqn:Hseg; cbn [bind]; [|done].
  destruct (extend_all segs) as [rest|] eqn:Hrest; cbn [bind]; [|done]. intros _.
  destruct (_traverse_list parent seg path) as [[parent' k]|error] eqn:Hlist.
  - unfold subscript.
    destruct (py_getitem (val parent') k) as [v|error] eqn:Hget; cbn [bind].
    + by apply (IH _ rest).
    + intros [= _ <-]. by apply py_getitem_raises in Hget as [_ ?].
  - intros [= _ <-]. by eapply _traverse_list_raises.
Qed.

(** Where a step of the segments before the last fails, so does the loop of
    [_traverse]. *)
Lemma walk_parents_fails parent segs path steps failure :
  extend_all segs = Ok steps ->
  traverse_loop (val parent) steps = inr failure ->
  exists sub_key e, walk_parents parent segs path = inr (sub_key, e).
Proof.
  intros Hsteps Hloop.
  destruct (walk_parents parent segs path) as [child|[sub_key e]] eqn:Hwalk; [|eauto].
  apply walk_parents_Ok in Hwalk as (steps' & Hsteps' & _ & Hloop').
  rewrite Hsteps in Hsteps'. injection Hsteps' as <-. congruence.
Qed.

Lemma contains_false_iff self path :
  Cut.__contains__ self path = Ok false <->
  exists keys k item e,
    split_path path (Cut.sep self) = Ok (keys ++ [k])
    /\ traverse_loop (Cut.data self) keys = inl item
    /\ py_getitem item k = Raise e
    /\ (class_of e = KeyError \/ class_of e = IndexError).
Proof.
  unfold Cut.__contains__. split.
  - destruct (Cut._traverse self _ path) as [[parent k]|] eqn:Htraverse; cbn [bind]; [|done].
    apply _traverse_Ok in Htraverse as [Hparse Hloop].
    destruct (py_getitem (val parent) k) as [v|e] eqn:Hget; [done|].
    intros Hfalse. exists (loc parent), k, (val parent), e. split_and!; [done..|].
    destruct (class_of e); try done; auto.
  - intros (keys & k & item & e & Hparse & Hloop & Hget & Hclass).
    rewrite (_traverse_of_steps _ _ _ _ _ _ Hparse Hloop). cbn [bind val].
    rewrite Hget. by destruct Hclass as [-> | ->].
Qed.

Lemma contains_raises_at_intermediate_step self path keys k failure :
  split_path path (Cut.sep self) = Ok (keys ++ [k]) ->
  traverse_loop (Cut.data self) keys = inr failure ->
  exists e,
    Cut._traverse self (root_ref (Cut.data self)) path = Raise e
    /\ Cut.__contains__ self path = Raise e.
Proof.
  intros Hparse Hloop. unfold Cut.__contains__.
  destruct (Cut._traverse self _ path) as [[parent k']|e] eqn:Htraverse; [|by exists e].
  apply _traverse_Ok in Htraverse as [Hparse' Hloop'].
  rewrite Hparse in Hparse'. injection Hparse' as Heq.
  apply app_inj_tail in Heq as [-> _]. congruence.
Qed.

Lemma contains_raises_wrapped self path parent_keys last_key steps failure :
  py_split path (Cut.sep self) = Ok (parent_keys ++ [last_key]) ->
  extend_all parent_keys = Ok steps ->
  traverse_loop (Cut.data self) steps = inr failure ->
  exists e,
    Cut.__contains__ self path = Raise e
    /\ (class_of e = KeyError \/ class_of e = IndexError)
    /\ original_path_of e = Some path.
Proof.
  intros Hsplit Hsteps Hloop.
  destruct (walk_parents_fails (root_ref (Cut.data self)) _ path _ _ Hsteps Hloop)
    as (sub_key & error & Hwalk).
  pose proof (walk_parents_raises _ _ _ _ _ _ Hsteps Hwalk) as Hclass.
  unfold Cut.__contains__, Cut._traverse. rewrite Hsplit. cbn [bind].
  rewrite unpack_last_snoc. cbn [bind]. rewrite Hwalk.
  destruct Hclass as [Hc|[Hc|Hc]]; rewrite Hc; cbn [bind]; eexists; split_and!;
    try reflexivity; cbn; auto.
Qed.

End Containment.

(** C10: [__contains__] returns [False] exactly when every step of the
    parsed path but the last resolves from the root and the last subscript
    raises a [KeyError] or an [IndexError].  Whatever [_traverse] raises,
    [__contains__] raises: when a step before the last fails, it does not
    return [False] but raises the exception of [_traverse]; when that step
    lies in a segment before the last one, the exception is the wrapped
    one, a [KeyError] or an [IndexError] that quotes the full path and
    names the key of the loop of [_traverse]. *)
Theorem C10_contains_false_only_at_last_step self path :
  (Cut.__contains__ self path = Ok false <->
     exists keys k item e,
       split_path path (Cut.sep self) = Ok (keys ++ [k])
       /\ traverse_loop (Cut.data self) keys = inl item
       /\ py_getitem item k = Raise e
       /\ (class_of e = KeyError \/ class_of e = IndexError))
  /\ (forall e,
        Cut._traverse self (root_ref (Cut.data self)) path = Raise e ->
        Cut.__contains__ self path = Raise e)
  /\ (forall keys k failure,
        split_path path (Cut.sep self) = Ok (keys ++ [k]) ->
        traverse_loop (Cut.data self) keys = inr failure ->
        exists e,
          Cut._traverse self (root_ref (Cut.data self)) path = Raise e
          /\ Cut.__contains__ self path = Raise e)
  /\ (forall parent_keys last_key steps failure,
        py_split path (Cut.sep self) = Ok (parent_keys ++ [last_key]) ->
        extend_all parent_keys = Ok steps ->
        traverse_loop (Cut.data self) steps = inr failure ->
        exists e,
          Cut.__contains__ self path = Raise e
          /\ (class_of e = KeyError \/ class_of e = IndexError)
          /\ original_path_of e = Some path)
  /\ (forall parent_keys last_key sub_key error,
        py_split path (Cut.sep self) = Ok (parent_keys ++ [last_key]) ->
        walk_parents (root_ref (Cut.data self)) parent_keys path = inr (sub_key, error) ->
        class_of error = KeyError \/ class_of error = IndexError \/ class_of error = TypeError ->
        exists e,
          Cut.__contains__ self path = Raise e
          /\ (class_of e = KeyError \/ class_of e = IndexError)
          /\ original_path_of e = Some path
          /\ failing_key_of e = Some sub_key).
Proof.
  split_and!.
  - apply contains_false_iff.
  - intros e He. unfold Cut.__contains__. by rewrite He.
  - apply contains_raises_at_intermediate_step.
  - apply contains_raises_wrapped.
  - intros parent_keys last_key sub_key error Hsplit Hwalk Hclass.
    unfold Cut.__contains__, Cut._traverse.
    rewrite Hsplit. cbn [bind]. rewrite unpack_last_snoc. cbn [bind]. rewrite Hwalk.
    destruct Hclass as [Hc|[Hc|Hc]]; rewrite Hc; cbn [bind]; eexists; split_and!;
      try reflexivity; cbn; auto.
Qed.

Lemma C10_witness :
  (exists keys k item e,
      split_path "pokemon[0].hp" "." = Ok (keys ++ [k])
      /\ traverse_loop pokemon keys = inl item
      /\ py_getitem item k = Raise e
      /\ (class_of e = KeyError \/ class_of e = IndexError))
  /\ (exists e,
        Cut._traverse (cut (VDict [(KStr "a", VList [VList [VInt 1]])]))
          (root_ref (VDict [(KStr "a", VList [VList [VInt 1]])])) "a[5][7]" = Raise e
        /\ Cut.__contains__ (cut (VDict [(KStr "a", VList [VList [VInt 1]])])) "a[5][7]"
           = Raise e)
  /\ (exists e,
        Cut.__contains__ (cut pokemon) "pokemon[3].level" = Raise e
        /\ (class_of e = KeyError \/ class_of e = IndexError)
        /\ original_path_of e = Some "pokemon[3].level")
  /\ (exists e,
        Cut.__contains__ (cut pokemon) "pokemon[3].level" = Raise e
        /\ (class_of e = KeyError \/ class_of e = IndexError)
        /\ original_path_of e = Some "pokemon[3].level"
        /\ failing_key_of e = Some (KInt 3)).
Proof.
  split; [|split; [|split]].
  - apply (C10_contains_false_only_at_last_step (cut pokemon) "pokemon[0].hp"). reflexivity.
  - destruct (C10_contains_false_only_at_last_step
                (cut (VDict [(KStr "a", VList [VList [VInt 1]])])) "a[5][7]")
      as (_ & _ & Hstep & _).
    apply (Hstep [KStr "a"; KInt 5] (KInt 7) (KInt 5, Raised IndexError None)); reflexivity.
  - destruct (C10_contains_false_only_at_last_step (cut pokemon) "pokemon[3].level")
      as (_ & _ & _ & Hsegment & _).
    apply (Hsegment ["pokemon[3]"] "level" [KStr "pokemon"; KInt 3]
             (KInt 3, Raised IndexError None)); reflexivity.
  - destruct (C10_contains_false_only_at_last_step (cut pokemon) "pokemon[3].level")
      as (_ & _ & _ & _ & Hwrapped).
    apply (Hwrapped ["pokemon[3]"] "level" (KInt 3) (Raised IndexError None));
      [reflexivity|reflexivity|auto].
Defined.

(** ** Membership, lookup and removal agree *)

Section Lookup.

Lemma contains_true_iff self path :
  Cut.__contains__ self path = Ok true <->
  exists parent k v,
    Cut._traverse self (root_ref (Cut.data self)) path = Ok (parent, k)
    /\ py_getitem (val parent) k = Ok v.
Proof.
  unfold Cut.__contains__. split.
  - destruct (Cut._traverse self _ path) as [[parent k]|]; cbn [bind]; [|done].
    destruct (py_getitem (val parent) k) as [v|error] eqn:Hget.
    + intros _. by exists parent, k, v.
    + by destruct (class_of error).
  - intros (parent & k & v & -> & Hget). cbn [bind]. by rewrite Hget.
Qed.

Lemma contains_iff_getitem self path :
  Cut.__contains__ self path = Ok true <-> exists v, Cut.__getitem__ self path = Ok v.
Proof.
  rewrite contains_true_iff. split.
  - intros (parent & k & v & Htraverse & Hget). exists v.
    apply _traverse_Ok in Htraverse as [Hparse Hloop].
    apply getitem_Ok. by exists (loc parent), k, (val parent).
  - intros [v (keys & k & item & Hparse & Hloop & Hget)%getitem_Ok].
    exists {| loc := keys; val := item |}, k, v. split; [|done].
    by apply _traverse_of_steps.
Qed.

(** What [pop] removes is what a subscript reads. *)
Lemma py_pop_getitem c k v c' : py_pop c k = Ok (v, c') -> py_getitem c k = Ok v.
Proof.
  destruct c as [|b|z|s|l|d]; try done; cbn [py_pop py_getitem].
  - destruct k as [key|i]; [done|].
    destruct (norm_index i (length l)); [|by destruct (fits_ssize_t i)].
    destruct (l !! _); [|done]. by intros [= <- _].
  - destruct (dict_get k d); [|done]. by intros [= <- _].
Qed.

Lemma py_pop_delitem c k v c' : py_pop c k = Ok (v, c') -> py_delitem c k = Ok c'.
Proof.
  destruct c as [|b|z|s|l|d]; try done; cbn [py_pop py_delitem].
  - destruct k as [key|i]; [done|].
    destruct (norm_index i (length l)); [|by destruct (fits_ssize_t i)].
    destruct (l !! _); [|done]. by intros [= _ <-].
  - destruct (dict_get k d); [|done]. by intros [= _ <-].
Qed.

Lemma py_pop_of_parts c k v c' :
  py_getitem c k = Ok v -> py_delitem c k = Ok c' -> py_pop c k = Ok (v, c').
Proof.
  destruct c as [|b|z|s|l|d]; try done; try (intros _; str_store_raises k);
    cbn [py_pop py_delitem py_getitem].
  - destruct k as [key|i]; [done|].
    destruct (norm_index i (length l)); [|done].
    destruct (l !! _); [|done]. by intros [= <-] [= <-].
  - destruct (dict_get k d); [|done]. by intros [= <-] [= <-].
Qed.

Lemma setitem_then_getitem self path value tree :
  Cut.__setitem__ self path value = (Ok tt, tree) ->
  Cut.__getitem__ {| Cut.data := tree; Cut.sep := Cut.sep self |} path = Ok value.
Proof.
  unfold Cut.__setitem__. intros Hset. apply getitem_Ok. cbn [Cut.sep Cut.data].
  destruct (split_path path (Cut.sep self)) as [steps|] eqn:Hparse; cbn [bind] in Hset; [|done].
  destruct (unpack_last_nonempty steps) as (keys & k & ->); [by eapply split_path_nonempty|].
  rewrite unpack_last_snoc in Hset. cbn [bind] in Hset.
  destruct (traverse (Cut.data self) keys path) as [item|] eqn:Htraverse;
    cbn [bind] in Hset; [|done].
  destruct (py_setitem item k value) as [container|error] eqn:Hstore;
    [|by destruct (class_of error)].
  injection Hset as <-. apply traverse_Ok in Htraverse.
  exists keys, k, container. split_and!; [done| |by eapply py_setitem_getitem].
  eapply traverse_loop_replace_at; [done|]. by eapply py_setitem_container.
Qed.

End Lookup.

(** X1: a path is a member of a [Cut] exactly when looking it up returns a
    value: [__contains__], which walks with [_traverse], and [__getitem__],
    which parses with [split_path] and walks with [traverse], resolve the
    same steps. *)
Theorem X1_contains_iff_getitem_succeeds self path :
  Cut.__contains__ self path = Ok true <-> exists v, Cut.__getitem__ self path = Ok v.
Proof. apply contains_iff_getitem. Qed.

Lemma X1_witness : exists v, Cut.__getitem__ (cut pokemon) "pokemon[0].level" = Ok v.
Proof. apply (X1_contains_iff_getitem_succeeds (cut pokemon) "pokemon[0].level"). reflexivity. Defined.

(** X2: without a default, [pop] succeeds exactly when both [__getitem__]
    and [__delitem__] do, and then returns the value the former reads and
    leaves the tree the latter leaves. *)
Theorem X2_pop_is_getitem_then_delitem self path v tree :
  Cut.pop self path VNone = (Ok v, tree) <->
  Cut.__getitem__ self path = Ok v /\ Cut.__delitem__ self path = (Ok tt, tree).
Proof.
  unfold Cut.pop, Cut.__delitem__. split.
  - destruct (Cut._traverse self _ path) as [[parent k]|error] eqn:Htraverse;
      [|by destruct (class_of error)].
    destruct (py_pop (val parent) k) as [[item container]|error] eqn:Hpop;
      [|by destruct (class_of error)].
    intros [= <- <-]. rewrite (py_pop_delitem _ _ _ _ Hpop). split; [|done].
    apply py_pop_getitem in Hpop. apply _traverse_Ok in Htraverse as [Hparse Hloop].
    apply getitem_Ok. by exists (loc parent), k, (val parent).
  - intros [(keys & k & item & Hparse & Hloop & Hget)%getitem_Ok Hdel].
    rewrite (_traverse_of_steps _ _ _ _ _ _ Hparse Hloop) in Hdel |- *. cbn [val loc] in *.
    destruct (py_delitem item k) as [container|error] eqn:Hdelitem;
      [|by destruct (class_of error)].
    injection Hdel as <-. by rewrite (py_pop_of_parts _ _ _ _ Hget Hdelitem).
Qed.

Lemma X2_witness :
  Cut.__getitem__ (cut pokemon) "pokemon[0].level" = Ok (VInt 1)
  /\ Cut.__delitem__ (cut pokemon) "pokemon[0].level"
     = (Ok tt, VDict [(KStr "pokemon", VList [VDict []])]).
Proof.
  apply (X2_pop_is_getitem_then_delitem (cut pokemon) "pokemon[0].level"). reflexivity.
Defined.

(** X3: after a successful [__setitem__] the path is a member of the
    [Cut]. *)
Theorem X3_setitem_makes_member self path value tree :
  Cut.__setitem__ self path value = (Ok tt, tree) ->
  Cut.__contains__ {| Cut.data := tree; Cut.sep := Cut.sep self |} path = Ok true.
Proof.
  intros Hset. apply contains_iff_getitem. exists value. by apply setitem_then_getitem.
Qed.

Lemma X3_witness :
  Cut.__contains__
    {| Cut.data := VDict [(KStr "a", VDict [(KStr "b", VInt 1); (KStr "c", VInt 2)])];
       Cut.sep := "." |} "a.c" = Ok true.
Proof. apply (X3_setitem_makes_member (cut a_b_1) "a.c" (VInt 2)). reflexivity. Defined.

(** ** [setdefault] and lookup *)

Section SetdefaultLookup.

Lemma setdefault_unfold self path default parent_keys last_key :
  py_split path (Cut.sep self) = Ok (parent_keys ++ [last_key]) ->
  Cut.setdefault self path default =
    match Cut.setdefault_loop (Cut.data self) (root_ref (Cut.data self)) parent_keys path with
    | (Raise error, tree) => (Raise error, tree)
    | (Ok parent, tree) =>
        match _traverse_list parent last_key path with
        | Raise error => (Raise error, tree)
        | Ok (parent', last_key') =>
            match py_getitem (val parent') last_key' with
            | Ok item => (Ok item, tree)
            | Raise error =>
                match class_of error with
                | KeyError =>
                    match store tree parent' last_key' default with
                    | Ok tree' => (Ok default, tree')
                    | Raise error' => (Raise error', tree)
                    end
                | IndexError => (Raise (index_error last_key' path error), tree)
                | _ => (Raise error, tree)
                end
            end
        end
    end.
Proof.
  intros Hsplit. unfold Cut.setdefault. rewrite Hsplit. cbn [bind].
  by rewrite unpack_last_snoc.
Qed.

(** Where every step resolves, the loop of [setdefault] creates nothing. *)
Lemma setdefault_loop_of_steps tree parent segs path steps v :
  extend_all segs = Ok steps ->
  traverse_loop (val parent) steps = inl v ->
  Cut.setdefault_loop tree parent segs path
  = (Ok {| loc := loc parent ++ steps; val := v |}, tree).
Proof.
  revert parent steps. induction segs as [|seg segs IH]; intros parent steps;
    cbn [extend_all Cut.setdefault_loop].
  - intros [= <-] [= <-]. by rewrite ref_eta.
  - destruct (split_indexes seg) as [ks|] eqn:Hseg; cbn [bind]; [|done].
    destruct (extend_all segs) as [rest|] eqn:Hrest; cbn [bind]; [|done].
    intros [= <-]. destruct (split_indexes_snoc _ _ Hseg) as (init & k & ->).
    rewrite !traverse_loop_app.
    destruct (traverse_loop (val parent) init) as [v1|] eqn:Hinit; [|done].
    cbn [traverse_loop].
    destruct (py_getitem v1 k) as [v2|] eqn:Hget; [|done]. intros Hloop.
    rewrite (_traverse_list_of_steps _ _ _ _ _ _ Hseg Hinit). unfold subscript.
    cbn [val loc]. rewrite Hget. cbn [bind].
    rewrite (IH {| loc := (loc parent ++ init) ++ [k]; val := v2 |} rest eq_refl Hloop).
    cbn [loc val]. by rewrite <- !app_assoc.
Qed.

(** The reference the loop of [setdefault] ends on sits, in the tree the
    loop leaves, at the steps [split_path] gives for the segments walked. *)
Lemma setdefault_loop_Ok tree parent segs path p tree' :
  valid tree parent ->
  Cut.setdefault_loop tree parent segs path = (Ok p, tree') ->
  exists steps,
    extend_all segs = Ok steps /\ loc p = loc parent ++ steps /\ valid tree' p.
Proof.
  revert tree parent. induction segs as [|seg segs IH]; intros tree parent Hparent;
    cbn [Cut.setdefault_loop].
  - intros [= <- <-]. exists []. by rewrite app_nil_r.
  - destruct (_traverse_list parent seg path) as [[parent' k]|] eqn:Hlist; [|done].
    pose proof (_traverse_list_valid _ _ _ _ _ _ Hparent Hlist) as Hparent'.
    apply _traverse_list_Ok in Hlist as (init & Hseg & Hloc & _).
    cbn [extend_all]. rewrite Hseg. cbn [bind].
    assert (forall child tree1,
               valid tree1 child -> loc child = loc parent' ++ [k] ->
               Cut.setdefault_loop tree1 child segs path = (Ok p, tree') ->
               exists steps,
                 (let* result := extend_all segs in Ok ((init ++ [k]) ++ result)) = Ok steps
                 /\ loc p = loc parent ++ steps /\ valid tree' p) as Hrest.
    { intros child tree1 Hchild Hloc_child Hloop.
      destruct (IH _ _ Hchild Hloop) as (steps & Hsteps & Hloc_p & Hp).
      exists ((init ++ [k]) ++ steps). rewrite Hsteps. split_and!; [done| |done].
      by rewrite Hloc_p, Hloc_child, Hloc, <- !app_assoc. }
    destruct (subscript parent' k) as [child|error] eqn:Hsub.
    { apply Hrest; [by eapply subscript_valid|].
      unfold subscript in Hsub. destruct (py_getitem (val parent') k); [|done].
      by injection Hsub as <-. }
    unfold subscript in Hsub.
    destruct (py_getitem (val parent') k) as [|error'] eqn:Hget; [done|].
    injection Hsub as <-. destruct (class_of error') eqn:Hclass; try done.
    destruct (py_getitem_KeyError _ _ _ Hget Hclass) as (d & Hval & Hfresh).
    destruct (store_fresh tree parent' k (VDict []) d Hparent' Hval Hfresh)
      as (-> & _ & Hchild).
    by apply Hrest.
Qed.

Lemma setdefault_keeps_existing self path default v :
  Cut.__getitem__ self path = Ok v ->
  Cut.setdefault self path default = (Ok v, Cut.data self).
Proof.
  intros (keys & k & item & Hparse & Hloop & Hget)%getitem_Ok.
  destruct (py_split path (Cut.sep self)) as [segs|] eqn:Hsplit;
    [|unfold split_path in Hparse; by rewrite Hsplit in Hparse].
  destruct (py_split_snoc _ _ _ Hsplit) as (parent_keys & last_key & ->).
  rewrite (setdefault_unfold _ _ _ _ _ Hsplit).
  rewrite (split_path_segments _ _ _ _ Hsplit) in Hparse.
  destruct (extend_all parent_keys) as [steps|] eqn:Hsteps; cbn [bind] in Hparse; [|done].
  destruct (split_indexes last_key) as [steps'|] eqn:Hlast; cbn [bind] in Hparse; [|done].
  injection Hparse as Hparse.
  destruct (split_indexes_snoc _ _ Hlast) as (init & k' & ->).
  rewrite app_assoc in Hparse. apply app_inj_tail in Hparse as [<- <-].
  rewrite traverse_loop_app in Hloop.
  destruct (traverse_loop (Cut.data self) steps) as [v1|] eqn:Hv1; [|done].
  rewrite (setdefault_loop_of_steps _ (root_ref (Cut.data self)) _ _ _ _ Hsteps Hv1).
  rewrite (_traverse_list_of_steps
             {| loc := loc (root_ref (Cut.data self)) ++ steps; val := v1 |}
             _ path _ _ item Hlast Hloop).
  cbn [val]. by rewrite Hget.
Qed.

Lemma setdefault_then_getitem self path default v tree :
  Cut.setdefault self path default = (Ok v, tree) ->
  Cut.__getitem__ {| Cut.data := tree; Cut.sep := Cut.sep self |} path = Ok v.
Proof.
  intros Hset. apply getitem_Ok. cbn [Cut.sep Cut.data].
  destruct (py_split path (Cut.sep self)) as [segs|] eqn:Hsplit;
    [|unfold Cut.setdefault in Hset; by rewrite Hsplit in Hset].
  destruct (py_split_snoc _ _ _ Hsplit) as (parent_keys & last_key & ->).
  rewrite (setdefault_unfold _ _ _ _ _ Hsplit) in Hset.
  rewrite (split_path_segments _ _ _ _ Hsplit).
  destruct (Cut.setdefault_loop _ _ parent_keys path) as [[p|] tree1] eqn:Hloop; [|done].
  apply setdefault_loop_Ok in Hloop as (steps & -> & Hloc & Hp); [|done].
  cbn [bind loc root_ref app] in *.
  destruct (_traverse_list p last_key path) as [[p' k]|] eqn:Hlist; [|done].
  pose proof (_traverse_list_valid _ _ _ _ _ _ Hp Hlist) as Hp'.
  apply _traverse_list_Ok in Hlist as (init & -> & Hloc' & _). cbn [bind].
  rewrite Hloc in Hloc'.
  destruct (py_getitem (val p') k) as [item|error] eqn:Hget.
  - injection Hset as <- <-. exists (loc p'), k, (val p').
    split_and!; [by rewrite Hloc', app_assoc|done..].
  - destruct (class_of error) eqn:Hclass; try done.
    destruct (py_getitem_KeyError _ _ _ Hget Hclass) as (d & Hval & Hfresh).
    destruct (store_fresh tree1 p' k default d Hp' Hval Hfresh) as (Hstore & _ & Hnew).
    rewrite Hstore in Hset. injection Hset as <- <-.
    unfold valid in Hnew. cbn [loc val] in Hnew. rewrite traverse_loop_snoc in Hnew.
    destruct (traverse_loop _ (loc p')) as [container|] eqn:Hcontainer; [|done].
    destruct (py_getitem container k) as [x|] eqn:Hx; [|done]. injection Hnew as ->.
    exists (loc p'), k, container. split_and!; [by rewrite Hloc', app_assoc|done..].
Qed.

End SetdefaultLookup.

(** X4: when the path already resolves, [setdefault] returns the value
    found there, whatever the default, and leaves the tree as it was. *)
Theorem X4_setdefault_keeps_existing_value self path default v :
  Cut.__getitem__ self path = Ok v ->
  Cut.setdefault self path default = (Ok v, Cut.data self).
Proof. apply setdefault_keeps_existing. Qed.

Lemma X4_witness : Cut.setdefault (cut pokemon) "pokemon[0].level" (VInt 9) = (Ok (VInt 1), pokemon).
Proof. apply (X4_setdefault_keeps_existing_value (cut pokemon) "pokemon[0].level"). reflexivity. Defined.

(** X5: whenever [setdefault] succeeds, [__getitem__] of the same path on
    the tree it leaves returns the value [setdefault] returned: the value
    that was there, or the default it stored, reached through the
    dictionaries it created. *)
Theorem X5_getitem_after_setdefault self path default v tree :
  Cut.setdefault self path default = (Ok v, tree) ->
  Cut.__getitem__ {| Cut.data := tree; Cut.sep := Cut.sep self |} path = Ok v.
Proof. apply setdefault_then_getitem. Qed.

Lemma X5_witness :
  Cut.__getitem__
    {| Cut.data := VDict [(KStr "a", VDict [(KStr "b", VDict [(KStr "c", VInt 3)])])];
       Cut.sep := "." |} "a.b.c" = Ok (VInt 3).
Proof. apply (X5_getitem_after_setdefault (cut (VDict [])) "a.b.c" (VInt 3)). reflexivity. Defined.

(** ** Removal *)

Section Removal.

Lemma dict_get_not_in k d : k ∉ d.*1 -> dict_get k d = None.
Proof.
  induction d as [|[k' v] d IH]; [done|]. cbn [fmap list_fmap fst dict_get].
  intros [Hne Hin]%not_elem_of_cons. rewrite decide_False by done. by apply IH.
Qed.

(** In a dictionary without repeated keys, a deleted key is gone. *)
Lemma dict_get_del_eq k d : NoDup d.*1 -> dict_get k (dict_del k d) = None.
Proof.
  induction d as [|[k' v] d IH]; [done|]. cbn [fmap list_fmap fst dict_del].
  intros [Hnotin Hnodup]%NoDup_cons. destruct (decide (k' = k)) as [->|Hne].
  - by apply dict_get_not_in.
  - cbn [dict_get]. rewrite decide_False by done. by apply IH.
Qed.

Lemma delitem_Ok self path tree :
  Cut.__delitem__ self path = (Ok tt, tree) ->
  exists parent k container,
    Cut._traverse self (root_ref (Cut.data self)) path = Ok (parent, k)
    /\ py_delitem (val parent) k = Ok container
    /\ tree = replace_at (Cut.data self) (loc parent) container.
Proof.
  unfold Cut.__delitem__.
  destruct (Cut._traverse self _ path) as [[parent k]|] eqn:Htraverse; [|done].
  destruct (py_delitem (val parent) k) as [container|error] eqn:Hdel;
    [|by destruct (class_of error)].
  intros [= <-]. by exists parent, k, container.
Qed.

Lemma py_delitem_container c k c' : py_delitem c k = Ok c' -> is_container c.
Proof. destruct c; try done. str_store_raises k. Qed.

End Removal.

(** X6: after a successful [__delitem__] whose last step removed a key of
    a dictionary (its keys being distinct), the path is no longer a member
    of the [Cut]. *)
Theorem X6_deleted_key_is_not_member self path tree parent k d :
  Cut.__delitem__ self path = (Ok tt, tree) ->
  Cut._traverse self (root_ref (Cut.data self)) path = Ok (parent, k) ->
  val parent = VDict d ->
  NoDup d.*1 ->
  Cut.__contains__ {| Cut.data := tree; Cut.sep := Cut.sep self |} path = Ok false.
Proof.
  intros (parent' & k' & container & Htraverse & Hdel & ->)%delitem_Ok Htraverse' Hval Hnodup.
  rewrite Htraverse in Htraverse'. injection Htraverse' as -> ->.
  pose proof (py_delitem_container _ _ _ Hdel) as Hcontainer.
  apply _traverse_Ok in Htraverse as [Hparse Hloop].
  pose proof (traverse_loop_replace_at _ _ _ container Hloop Hcontainer) as Hloop'.
  unfold Cut.__contains__.
  rewrite (_traverse_of_steps {| Cut.data := _; Cut.sep := Cut.sep self |} _ _ _ _ _
             Hparse Hloop').
  cbn [bind val]. rewrite Hval in Hdel. cbn [py_delitem] in Hdel.
  destruct (dict_get k d); [|done]. injection Hdel as <-.
  cbn [py_getitem]. by rewrite dict_get_del_eq.
Qed.

Lemma X6_witness :
  Cut.__contains__
    {| Cut.data := VDict [(KStr "pokemon", VList [VDict []])]; Cut.sep := "." |}
    "pokemon[0].level" = Ok false.
Proof.
  apply (X6_deleted_key_is_not_member (cut pokemon) "pokemon[0].level" _
           {| loc := [KStr "pokemon"; KInt 0]; val := VDict [(KStr "level", VInt 1)] |}
           (KStr "level") [(KStr "level", VInt 1)]); try reflexivity.
  apply NoDup_singleton.
Defined.

(** ** What the parser keeps and what it overlooks *)

Section ParserShape.

Lemma key_names_app steps steps' : key_names (steps ++ steps') = key_names steps ++ key_names steps'.
Proof. apply omap_app. Qed.

Lemma key_names_indexes indexes : key_names (KInt <$> indexes) = [].
Proof. by induction indexes. Qed.

Lemma split_indexes_key_names seg steps :
  split_indexes seg = Ok steps -> key_names steps = [segment_name seg].
Proof.
  unfold split_indexes, segment_name. destruct (split_scan "[" seg 0) as [key [|p ps]].
  - by intros [= <-].
  - destruct (read_indexes (p :: ps)) as [|indexes]; [by destruct (_ && _)|].
    intros [= <-]. change (map KInt indexes) with (KInt <$> indexes).
    change (key_names (KStr key :: (KInt <$> indexes)))
      with (key :: key_names (KInt <$> indexes)).
    by rewrite key_names_indexes.
Qed.

Lemma extend_all_key_names segs steps :
  extend_all segs = Ok steps -> key_names steps = segment_name <$> segs.
Proof.
  revert steps. induction segs as [|seg segs IH]; intros steps; cbn [extend_all].
  - by intros [= <-].
  - destruct (split_indexes seg) as [ks|] eqn:Hseg; cbn [bind]; [|done].
    destruct (extend_all segs) as [rest|]; cbn [bind]; [|done]. intros [= <-].
    rewrite key_names_app, (split_indexes_key_names _ _ Hseg), (IH rest eq_refl). done.
Qed.

Lemma contains_char_app c s t :
  contains_char c (String.append s t) = contains_char c s || contains_char c t.
Proof.
  induction s as [|a s IH]; [done|]. rewrite append_cons. cbn [contains_char].
  by destruct (Ascii.eqb a c).
Qed.

Lemma drop_last_snoc s c : drop_last (String.append s (String c EmptyString)) = s.
Proof.
  induction s as [|a s IH]; [done|]. rewrite append_cons. cbn [drop_last].
  rewrite IH. destruct s; done.
Qed.

(** A segment [key[rest] splits at its first bracket. *)
Lemma split_scan_bracket_app key rest :
  contains_char "[" key = false ->
  split_scan "[" (String.append key (String "[" rest)) 0
  = (key, (split_scan "[" rest 0).1 :: (split_scan "[" rest 0).2).
Proof.
  induction key as [|c key IH].
  - intros _. change (String.append EmptyString ?x) with x.
    cbn [split_scan]. rewrite prefix_bracket. cbn [Ascii.eqb Bool.eqb String.length Nat.sub].
    by destruct (split_scan "[" rest 0).
  - intros [Hc Hkey]%contains_char_cons. rewrite append_cons. cbn [split_scan].
    rewrite prefix_bracket. destruct (Ascii.eqb_spec c "["); [done|]. by rewrite IH.
Qed.

End ParserShape.

(** X7: the [Key] steps of a parsed path are, in order, the names of its
    separator-delimited segments (the text of each segment before its first
    bracket): every segment gives exactly one [Key] step, whatever indices
    follow it. *)
Theorem X7_one_key_step_per_segment path sep steps :
  split_path path sep = Ok steps ->
  key_names steps = segment_name <$> str_split path sep
  /\ length (key_names steps) = length (str_split path sep).
Proof.
  unfold split_path, py_split. case_decide; [done|]. cbn [bind].
  intros ->%extend_all_key_names. split; [done|]. apply length_fmap.
Qed.

Lemma X7_witness :
  key_names [KStr "a"; KInt 0; KInt 1; KStr ""; KStr "b"; KInt (-1)]
    = segment_name <$> str_split "a[0][1]..b[-1]" "."
  /\ length (key_names [KStr "a"; KInt 0; KInt 1; KStr ""; KStr "b"; KInt (-1)])
     = length (str_split "a[0][1]..b[-1]" ".").
Proof. apply (X7_one_key_step_per_segment "a[0][1]..b[-1]" "."). reflexivity. Defined.

(** X8: the parser never looks at the character that closes an index: the
    segment [key[body] followed by any one character other than ['['] parses
    as [key[body]] does, to the [Key] step and the [Index] step of the
    integer [int] reads in the body. *)
Theorem X8_closing_character_is_not_checked key body c i :
  contains_char "[" key = false ->
  contains_char "[" body = false ->
  c <> "["%char ->
  py_int body = Some i ->
  split_indexes (String.append key (String "[" (String.append body (String c EmptyString))))
  = Ok [KStr key; KInt i].
Proof.
  intros Hkey Hbody Hc Hint. unfold split_indexes.
  rewrite split_scan_bracket_app by done.
  rewrite split_scan_bracket_free.
  2: { rewrite contains_char_app, Hbody. cbn [contains_char orb].
       by destruct (Ascii.eqb_spec c "["). }
  cbn [fst snd read_indexes]. by rewrite drop_last_snoc, Hint.
Qed.

Lemma X8_witness :
  split_indexes "a[1)" = Ok [KStr "a"; KInt 1] /\ split_indexes "a[12" = Ok [KStr "a"; KInt 1].
Proof.
  split.
  - by apply (X8_closing_character_is_not_checked "a" "1" ")" 1).
  - by apply (X8_closing_character_is_not_checked "a" "1" "2" 1).
Defined.

(** ** The exceptions of a lookup *)

Section LookupErrors.

Lemma traverse_raises data keys path e :
  traverse data keys path = Raise e ->
  class_of e = KeyError \/ class_of e = IndexError \/ class_of e = TypeError.
Proof.
  unfold traverse. destruct (traverse_loop data keys) as [|[key error]] eqn:Hloop; [done|].
  assert (class_of error = KeyError \/ class_of error = IndexError \/ class_of error = TypeError)
    as Hclass.
  { revert data Hloop. induction keys as [|k keys IH]; intros data; cbn [traverse_loop]; [done|].
    destruct (py_getitem data k) as [v|e'] eqn:Hget; [apply IH|].
    intros [= _ <-]. by apply py_getitem_raises in Hget as [_ ?]. }
  destruct (class_of error) eqn:Herror; intros [= <-]; cbn; rewrite ?Herror; auto.
Qed.

Lemma getitem_raises self path e :
  Cut.__getitem__ self path = Raise e ->
  class_of e = KeyError \/ class_of e = IndexError \/ class_of e = TypeError
  \/ class_of e = ValueError.
Proof.
  unfold Cut.__getitem__.
  destruct (split_path path (Cut.sep self)) as [steps|e0] eqn:Hparse; cbn [bind].
  2: { intros [= <-]. apply split_path_raises in Hparse. auto. }
  destruct (unpack_last_nonempty steps) as (keys & k & ->); [by eapply split_path_nonempty|].
  rewrite unpack_last_snoc. cbn [bind].
  destruct (traverse (Cut.data self) keys path) as [item|e0] eqn:Htraverse; cbn [bind].
  2: { intros [= <-]. apply traverse_raises in Htraverse. tauto. }
  destruct (py_getitem item k) as [v|e0] eqn:Hget; cbn [try_except]; [done|].
  apply py_getitem_raises in Hget as [_ Hclass].
  destruct (class_of e0) eqn:He0; intros [= <-]; cbn; rewrite ?He0; tauto.
Qed.

End LookupErrors.

(** X9: [get] with a default other than [None] never raises a [KeyError]
    or an [IndexError]: it returns a value, or raises the [TypeError] of a
    step against the wrong kind of object or the [ValueError] of a
    malformed path. *)
Theorem X9_get_with_default_raises_only_type_or_value_error self path default e :
  default <> VNone ->
  Cut.get self path default = Raise e ->
  class_of e = TypeError \/ class_of e = ValueError.
Proof.
  intros Hdefault. unfold Cut.get.
  destruct (Cut.__getitem__ self path) as [v|e0] eqn:Hget; cbn [try_except]; [done|].
  apply getitem_raises in Hget.
  destruct (class_of e0) eqn:He0; try (by destruct default); intros [= <-];
    rewrite He0; try tauto; destruct Hget as [?|[?|[?|?]]]; done.
Qed.

Lemma X9_witness :
  class_of (Raised TypeError None) = TypeError \/ class_of (Raised TypeError None) = ValueError.
Proof.
  apply (X9_get_with_default_raises_only_type_or_value_error (cut a_1) "a.b" (VInt 0));
    [done|reflexivity].
Defined.

(** ** The dictionary at the top of the tree *)

Section TopLevel.

Lemma prefix_char c a s : String.prefix (String c EmptyString) (String a s) = Ascii.eqb a c.
Proof.
  cbn [String.prefix].
  destruct (Ascii.eqb_spec a c) as [Heq|Hneq], (ascii_dec c a) as [He|Hne];
    try congruence; by destruct s.
Qed.

(** A string without the one-character separator is its only segment. *)
Lemma split_scan_char_free c s :
  contains_char c s = false -> split_scan (String c EmptyString) s 0 = (s, []).
Proof.
  induction s as [|a s IH]; [done|].
  intros [Ha Hs]%contains_char_cons.
  cbn [split_scan]. rewrite prefix_char.
  destruct (Ascii.eqb_spec a c); [done|]. by rewrite IH.
Qed.

Lemma dict_get_is_Some k d : is_Some (dict_get k d) <-> k ∈ d.*1.
Proof.
  induction d as [|[k' v] d IH]; cbn [dict_get fmap list_fmap fst].
  - split; [by intros [? ?]|by intros ?%elem_of_nil].
  - rewrite elem_of_cons. destruct (decide (k' = k)) as [->|Hne].
    + split; [by left|by eexists].
    + rewrite IH. split; [by right|]. by intros [->|].
Qed.

Lemma dict_set_fresh k x d : dict_get k d = None -> dict_set k x d = d ++ [(k, x)].
Proof.
  induction d as [|[k' v] d IH]; [done|]. cbn [dict_get dict_set app].
  destruct (decide (k' = k)); [done|]. intros H. by rewrite IH.
Qed.

Lemma dict_popitem_snoc d entry : dict_popitem (d ++ [entry]) = Some (entry, d).
Proof.
  induction d as [|e d IH]; [done|]. cbn [app dict_popitem]. rewrite IH.
  by destruct (d ++ [entry]) eqn:Hd; [destruct d|].
Qed.

Lemma dict_get_fold_fromkeys k value seq d :
  dict_get k (fold_left (fun d k => dict_set k value d) seq d)
  = if decide (k ∈ seq) then Some value else dict_get k d.
Proof.
  revert d. induction seq as [|k' seq IH]; intros d; cbn [fold_left].
  - rewrite decide_False; [done|]. apply not_elem_of_nil.
  - rewrite IH. destruct (decide (k ∈ seq)) as [Hin|Hnotin].
    + rewrite decide_True; [done|]. by right.
    + destruct (decide (k = k')) as [->|Hne].
      * rewrite decide_True by (by left). apply dict_get_set_eq.
      * rewrite decide_False by (by intros [?|?]%elem_of_cons).
        by apply dict_get_set_ne.
Qed.

Lemma dict_set_nonempty k x d : dict_set k x d <> [].
Proof. destruct d as [|[k' v] d]; cbn [dict_set]; [done|]. by destruct (decide (k' = k)). Qed.

Lemma dict_fromkeys_nonempty k seq value : dict_fromkeys (k :: seq) value <> [].
Proof.
  unfold dict_fromkeys. cbn [fold_left]. generalize (dict_set k value []) (dict_set_nonempty k value []).
  induction seq as [|k' seq IH]; intros d Hd; cbn [fold_left]; [done|].
  apply IH, dict_set_nonempty.
Qed.

(** A path of one segment without brackets is looked up as one key of the
    object wrapped. *)
Lemma getitem_plain_key self key :
  py_split key (Cut.sep self) = Ok [key] ->
  contains_char "[" key = false ->
  Cut.__getitem__ self key =
    try_except (py_getitem (Cut.data self) (KStr key)) (fun error =>
      match class_of error with
      | KeyError => Raise (key_error (KStr key) key error)
      | IndexError => Raise (index_error (KStr key) key error)
      | _ => Raise error
      end).
Proof.
  intros Hsplit Hplain. unfold Cut.__getitem__, split_path. rewrite Hsplit.
  cbn [bind extend_all]. by rewrite split_indexes_plain.
Qed.

Lemma _traverse_plain_key self key :
  py_split key (Cut.sep self) = Ok [key] ->
  contains_char "[" key = false ->
  Cut._traverse self (root_ref (Cut.data self)) key = Ok (root_ref (Cut.data self), KStr key).
Proof.
  intros Hsplit Hplain. unfold Cut._traverse. rewrite Hsplit.
  cbn [bind unpack_last walk_parents]. unfold _traverse_list.
  by rewrite split_scan_bracket_free.
Qed.

Lemma setitem_plain_key self key value d :
  py_split key (Cut.sep self) = Ok [key] ->
  contains_char "[" key = false ->
  Cut.data self = VDict d ->
  Cut.__setitem__ self key value = (Ok tt, VDict (dict_set (KStr key) value d)).
Proof.
  intros Hsplit Hplain Hdata. unfold Cut.__setitem__, split_path. rewrite Hsplit.
  cbn [bind extend_all]. rewrite split_indexes_plain by done.
  cbn [bind app unpack_last traverse traverse_loop]. by rewrite Hdata.
Qed.

End TopLevel.

(** X10: for a [Cut] over a dictionary and a path of one segment without
    brackets, membership never raises and is membership among [keys()]. *)
Theorem X10_plain_key_member_iff_in_keys self key ks :
  Cut.keys self = Ok ks ->
  py_split key (Cut.sep self) = Ok [key] ->
  contains_char "[" key = false ->
  Cut.__contains__ self key = Ok (bool_decide (KStr key ∈ ks)).
Proof.
  intros Hkeys Hsplit Hplain. unfold Cut.__contains__.
  rewrite _traverse_plain_key by done. cbn [bind val root_ref].
  unfold Cut.keys in Hkeys. destruct (Cut.data self) as [| | | | |d]; try done.
  injection Hkeys as <-. cbn [py_getitem].
  pose proof (dict_get_is_Some (KStr key) d) as Hsome.
  destruct (dict_get (KStr key) d) as [v|].
  - rewrite bool_decide_eq_true_2; [done|]. apply Hsome. by eexists.
  - rewrite bool_decide_eq_false_2; [done|]. intros [? ?]%Hsome. done.
Qed.

Lemma X10_witness :
  Cut.__contains__ (cut a_b_1) "a" = Ok (bool_decide (KStr "a" ∈ [KStr "a"]))
  /\ Cut.__contains__ (cut a_b_1) "b" = Ok (bool_decide (KStr "b" ∈ [KStr "a"])).
Proof.
  split.
  - by apply (X10_plain_key_member_iff_in_keys (cut a_b_1) "a" [KStr "a"]).
  - by apply (X10_plain_key_member_iff_in_keys (cut a_b_1) "b" [KStr "a"]).
Defined.

(** X11: every string of [seq] that holds neither the separator [.] nor a
    bracket is a path of [fromkeys(seq, value)] that reads [value]. *)
Theorem X11_fromkeys_then_getitem seq value key :
  KStr key ∈ seq ->
  contains_char "." key = false ->
  contains_char "[" key = false ->
  Cut.__getitem__ (Cut.fromkeys seq value) key = Ok value.
Proof.
  intros Hin Hdot Hplain.
  assert (Cut.fromkeys seq value
          = {| Cut.data := VDict (dict_fromkeys seq value); Cut.sep := "." |}) as ->.
  { unfold Cut.fromkeys, Cut.__init__. destruct seq as [|k seq]; [by apply elem_of_nil in Hin|].
    cbn [Cut.truthy]. pose proof (dict_fromkeys_nonempty k seq value).
    by destruct (dict_fromkeys (k :: seq) value). }
  rewrite getitem_plain_key; [|cbn [Cut.sep]|done].
  - cbn [Cut.data py_getitem]. unfold dict_fromkeys.
    rewrite dict_get_fold_fromkeys. by rewrite decide_True.
  - unfold py_split. rewrite decide_False by done. rewrite str_split_cons.
    by rewrite (split_scan_char_free "." key Hdot).
Qed.

Lemma X11_witness :
  Cut.__getitem__ (Cut.fromkeys [KStr "a"; KInt 3; KStr "b"; KStr "a"] (VInt 7)) "b" = Ok (VInt 7).
Proof.
  apply (X11_fromkeys_then_getitem [KStr "a"; KInt 3; KStr "b"; KStr "a"] (VInt 7) "b");
    [|reflexivity..].
  apply list_elem_of_lookup_2 with (i := 2%nat). reflexivity.
Defined.

(** X12: assigning a new key of one plain segment at the top of a [Cut]
    over a dictionary puts it last: [popitem] then returns that key with the
    value assigned and leaves the dictionary as it was before. *)
Theorem X12_popitem_undoes_setitem_of_new_key self key value d :
  Cut.data self = VDict d ->
  dict_get (KStr key) d = None ->
  py_split key (Cut.sep self) = Ok [key] ->
  contains_char "[" key = false ->
  exists tree,
    Cut.__setitem__ self key value = (Ok tt, tree)
    /\ Cut.popitem {| Cut.data := tree; Cut.sep := Cut.sep self |}
       = (Ok (KStr key, value), VDict d).
Proof.
  intros Hdata Hfresh Hsplit Hplain. eexists. split.
  - by apply setitem_plain_key.
  - unfold Cut.popitem. cbn [Cut.data]. by rewrite dict_set_fresh, dict_popitem_snoc.
Qed.

Lemma X12_witness :
  exists tree,
    Cut.__setitem__ (cut a_b_1) "z" (VInt 5) = (Ok tt, tree)
    /\ Cut.popitem {| Cut.data := tree; Cut.sep := "." |} = (Ok (KStr "z", VInt 5), a_b_1).
Proof.
  apply (X12_popitem_undoes_setitem_of_new_key (cut a_b_1) "z" (VInt 5)
           [(KStr "a", VDict [(KStr "b", VInt 1)])]); reflexivity.
Defined.

(** ** [update] *)

Section Update.

Lemma update_loop_app self pairs pairs' :
  Cut.update_loop self (pairs ++ pairs') =
    match Cut.update_loop self pairs with
    | (Ok _, tree) => Cut.update_loop {| Cut.data := tree; Cut.sep := Cut.sep self |} pairs'
    | (Raise error, tree) => (Raise error, tree)
    end.
Proof.
  revert self. induction pairs as [|[key value] pairs IH]; intros self;
    cbn [app Cut.update_loop].
  - by destruct self.
  - destruct (Cut.setitem_key self key value) as [[[]|error] tree]; [|done].
    by rewrite IH.
Qed.

(** A failed assignment leaves the tree as it was. *)
Lemma setitem_key_raises self key value error tree :
  Cut.setitem_key self key value = (Raise error, tree) -> tree = Cut.data self.
Proof.
  unfold Cut.setitem_key, Cut.__setitem__. destruct key; try (by intros [= _ <-]).
  destruct (let* steps := split_path s (Cut.sep self) in _) as [[[keys k] item]|];
    [|by intros [= _ <-]].
  destruct (py_setitem item k value) as [|e]; [done|].
  by destruct (class_of e); intros [= _ <-].
Qed.

End Update.

(** X13: [update] is not atomic.  When the assignment of one of its pairs
    raises, [update] raises that exception, the pairs after it are not
    assigned, and the assignments of the pairs before it stay in the
    tree. *)
Theorem X13_update_stops_at_first_failure self data kwargs done key value rest tree error :
  Cut.update_pairs data kwargs = done ++ (key, value) :: rest ->
  Cut.update_loop self done = (Ok tt, tree) ->
  (Cut.setitem_key {| Cut.data := tree; Cut.sep := Cut.sep self |} key value).1 = Raise error ->
  Cut.update self data kwargs = (Raise error, tree).
Proof.
  intros Hpairs Hdone Hraise. unfold Cut.update. rewrite Hpairs, update_loop_app, Hdone.
  cbn [Cut.update_loop].
  destruct (Cut.setitem_key _ key value) as [[|e] tree'] eqn:Hset; [done|].
  cbn [fst] in Hraise. injection Hraise as ->.
  by rewrite (setitem_key_raises _ _ _ _ _ Hset).
Qed.

Lemma X13_witness :
  Cut.update (cut a_b_1) (Cut.UPairs [(VStr "a.b", VInt 2); (VStr "x.y", VInt 3); (VStr "a.c", VInt 4)]) []
  = (Raise (Raised KeyError (Some (KStr "x"))), VDict [(KStr "a", VDict [(KStr "b", VInt 2)])]).
Proof.
  apply (X13_update_stops_at_first_failure (cut a_b_1)
           (Cut.UPairs [(VStr "a.b", VInt 2); (VStr "x.y", VInt 3); (VStr "a.c", VInt 4)]) []
           [(VStr "a.b", VInt 2)] (VStr "x.y") (VInt 3) [(VStr "a.c", VInt 4)]);
    reflexivity.
Defined.

(** X14: the last pair wins.  After a successful [update], the path of the
    last pair assigned reads the value of that pair. *)
Theorem X14_update_last_pair_reads_back self data kwargs init path value tree :
  Cut.update_pairs data kwargs = init ++ [(VStr path, value)] ->
  Cut.update self data kwargs = (Ok tt, tree) ->
  Cut.__getitem__ {| Cut.data := tree; Cut.sep := Cut.sep self |} path = Ok value.
Proof.
  intros Hpairs. unfold Cut.update. rewrite Hpairs, update_loop_app.
  destruct (Cut.update_loop self init) as [[[]|] tree1]; [|done].
  cbn [Cut.update_loop Cut.setitem_key Cut.sep].
  destruct (Cut.__setitem__ _ path value) as [[[]|] tree2] eqn:Hset; [|done].
  intros [= <-]. apply setitem_then_getitem in Hset. by cbn [Cut.sep] in Hset.
Qed.

Lemma X14_witness :
  Cut.__getitem__
    {| Cut.data := VDict [(KStr "a", VDict [(KStr "b", VInt 7); (KStr "c", VInt 4)])];
       Cut.sep := "." |} "a.b" = Ok (VInt 7).
Proof.
  apply (X14_update_last_pair_reads_back (cut a_b_1)
           (Cut.UPairs [(VStr "a.b", VInt 2); (VStr "a.c", VInt 4)]) [("a.b", VInt 7)]
           [(VStr "a.b", VInt 2); (VStr "a.c", VInt 4)]); reflexivity.
Defined.

(** ** Paths compose *)

Section Composition.

(** With a one-character separator, the segments of [p + sep + q] are
    those of [p] followed by those of [q]. *)
Lemma split_scan_char_app c p q :
  split_scan (String c EmptyString) (String.append p (String c q)) 0
  = ((split_scan (String c EmptyString) p 0).1,
     (split_scan (String c EmptyString) p 0).2
     ++ (split_scan (String c EmptyString) q 0).1 :: (split_scan (String c EmptyString) q 0).2).
Proof.
  induction p as [|a p IH].
  - change (String.append EmptyString ?x) with x. cbn [split_scan].
    rewrite prefix_char, Ascii.eqb_refl. cbn [String.length Nat.sub fst snd app].
    by destruct (split_scan _ q 0).
  - rewrite append_cons. cbn [split_scan]. rewrite !prefix_char.
    cbn [String.length Nat.sub]. rewrite IH.
    destruct (Ascii.eqb a c), (split_scan _ p 0); done.
Qed.

Lemma str_split_char_app c p q :
  str_split (String.append p (String c q)) (String c EmptyString)
  = str_split p (String c EmptyString) ++ str_split q (String c EmptyString).
Proof. by rewrite !str_split_cons, split_scan_char_app. Qed.

Lemma split_path_char_app c p q :
  split_path (String.append p (String c q)) (String c EmptyString) =
    let* steps := split_path p (String c EmptyString) in
    let* steps' := split_path q (String c EmptyString) in
    Ok (steps ++ steps').
Proof.
  rewrite !split_path_nonempty_sep by done. by rewrite str_split_char_app, extend_all_app.
Qed.

Lemma resolve_rule_app node steps steps' v :
  resolve_rule node steps = Found v ->
  resolve_rule node (steps ++ steps') = resolve_rule v steps'.
Proof.
  revert node. induction steps as [|step steps IH]; intros node; cbn [app resolve_rule].
  - by intros [= ->].
  - destruct (apply_step node step); [apply IH|done].
Qed.

Lemma getitem_rule self path steps :
  split_path path (Cut.sep self) = Ok steps ->
  outcome_of (Cut.__getitem__ self path) = Some (resolve_rule (Cut.data self) steps).
Proof.
  intros Hparse.
  destruct (unpack_last_nonempty steps) as (keys & k & ->); [by eapply split_path_nonempty|].
  rewrite (getitem_unfold _ _ keys k) by done. apply getitem_steps_rule.
Qed.

End Composition.

(** X15: with a one-character separator such as the default [.], paths
    compose: when [p] resolves to an object [v] that is truthy or an empty
    dictionary (any other falsy object is replaced by a new dictionary when
    a [Cut] is made of it), looking up [p + sep + q] in the [Cut] gives the
    value, or the kind of failure, that looking up [q] in [Cut(v, sep)]
    gives. *)
Theorem X15_lookup_of_joined_path self c p q v :
  Cut.sep self = String c EmptyString ->
  Cut.__getitem__ self p = Ok v ->
  Cut.truthy v = true \/ v = VDict [] ->
  outcome_of (Cut.__getitem__ self (String.append p (String c q)))
  = outcome_of (Cut.__getitem__ (Cut.__init__ v (Cut.sep self)) q).
Proof.
  intros Hsep Hp Hv.
  assert (Cut.__init__ v (Cut.sep self) = {| Cut.data := v; Cut.sep := Cut.sep self |}) as ->.
  { unfold Cut.__init__. destruct Hv as [-> | ->]; done. }
  assert (exists steps, split_path p (Cut.sep self) = Ok steps) as [steps Hsteps].
  { apply getitem_Ok in Hp as (keys & k & _ & ? & _). eauto. }
  pose proof (getitem_rule _ _ _ Hsteps) as Hrule. rewrite Hp in Hrule.
  injection Hrule as Hrule.
  destruct (split_path q (Cut.sep self)) as [steps'|e] eqn:Hq.
  - rewrite (getitem_rule self _ (steps ++ steps')).
    2: { rewrite Hsep, split_path_char_app, <- Hsep, Hsteps, Hq. done. }
    rewrite (getitem_rule {| Cut.data := v; Cut.sep := Cut.sep self |} q steps') by done.
    cbn [Cut.data]. by rewrite (resolve_rule_app _ _ _ v).
  - unfold Cut.__getitem__. cbn [Cut.sep].
    rewrite Hsep, split_path_char_app, <- Hsep, Hsteps, Hq. done.
Qed.

Lemma X15_witness :
  outcome_of (Cut.__getitem__ (cut pokemon) "pokemon[0].level")
  = outcome_of (Cut.__getitem__ (Cut.__init__ (VDict [(KStr "level", VInt 1)]) ".") "level").
Proof.
  apply (X15_lookup_of_joined_path (cut pokemon) "." "pokemon[0]" "level");
    [reflexivity|reflexivity|by left].
Defined.

(** ** Membership and [get] *)

(** X16: [get] agrees with membership.  With a default other than [None],
    [get] returns the default when the path is not a member of the [Cut],
    and what [__getitem__] returns when it is. *)
Theorem X16_get_follows_membership self path default member :
  default <> VNone ->
  Cut.__contains__ self path = Ok member ->
  Cut.get self path default = if member then Cut.__getitem__ self path else Ok default.
Proof.
  intros Hdefault Hmember. destruct member.
  - apply contains_iff_getitem in Hmember as [v Hv]. unfold Cut.get. by rewrite Hv.
  - unfold Cut.__contains__ in Hmember.
    destruct (Cut._traverse self _ path) as [[parent k]|] eqn:Htraverse;
      cbn [bind] in Hmember; [|done].
    apply _traverse_Ok in Htraverse as [Hparse Hloop].
    unfold Cut.get, Cut.__getitem__. rewrite Hparse. cbn [bind].
    rewrite unpack_last_snoc. cbn [bind].
    apply traverse_Ok with (path := path) in Hloop. rewrite Hloop. cbn [bind].
    destruct (py_getitem (val parent) k) as [|error]; [done|]. cbn [try_except].
    destruct (class_of error); try done; cbn; by destruct default.
Qed.

Lemma X16_witness :
  Cut.get (cut pokemon) "pokemon[0].hp" (VInt 0) = Ok (VInt 0)
  /\ Cut.get (cut pokemon) "pokemon[0].level" (VInt 0)
     = Cut.__getitem__ (cut pokemon) "pokemon[0].level".
Proof.
  split.
  - by apply (X16_get_follows_membership (cut pokemon) "pokemon[0].hp" (VInt 0) false).
  - by apply (X16_get_follows_membership (cut pokemon) "pokemon[0].level" (VInt 0) true).
Defined.

(** ** What [setdefault] leaves alone *)

Section SetdefaultKeeps.

Lemma scalars_kept_refl tree : scalars_kept tree tree.
Proof. by intros keys v. Qed.

Lemma scalars_kept_trans t1 t2 t3 : scalars_kept t1 t2 -> scalars_kept t2 t3 -> scalars_kept t1 t3.
Proof. intros H12 H23 keys v H1 Hv. apply H23; [|done]. by apply H12. Qed.

Lemma replace_at_scalars_kept tree keys c new :
  traverse_loop tree keys = inl c ->
  is_container c ->
  scalars_kept c new ->
  scalars_kept tree (replace_at tree keys new).
Proof.
  revert tree. induction keys as [|k0 keys IH]; intros tree Hloop Hc Hnew.
  - injection Hloop as ->. done.
  - pose proof (traverse_loop_container _ _ _ _ Hloop Hc) as Htree.
    cbn [traverse_loop replace_at] in *.
    destruct (py_getitem tree k0) as [child|] eqn:Hget; [|done].
    specialize (IH child Hloop Hc Hnew).
    destruct (py_setitem_defined tree k0 child (replace_at child keys new) Hget Htree)
      as [tree' Hset].
    rewrite Hset. intros [|k1 ks] v; cbn [traverse_loop].
    + by intros [= ->] [].
    + destruct (py_getitem tree k1) as [c1|] eqn:Hget1; [|done]. intros Hks Hv.
      destruct (py_getitem_after_setitem _ _ _ _ _ _ Hset Hget1) as [[-> Hsame]| ->]; [|done].
      rewrite Hget in Hsame. injection Hsame as <-. by apply IH.
Qed.

Lemma dict_set_fresh_scalars_kept k x d :
  dict_get k d = None -> scalars_kept (VDict d) (VDict (dict_set k x d)).
Proof.
  intros Hfresh [|k1 ks] v; cbn [traverse_loop py_getitem]; [by intros [= <-] []|].
  destruct (dict_get k1 d) as [c1|] eqn:Hget1; [|done].
  by rewrite dict_get_set_ne, Hget1 by congruence.
Qed.

Lemma store_fresh_scalars_kept tree parent k x d :
  valid tree parent ->
  val parent = VDict d ->
  dict_get k d = None ->
  scalars_kept tree (replace_at tree (loc parent) (VDict (dict_set k x d))).
Proof.
  unfold valid. intros Hparent Hval Hfresh. rewrite Hval in Hparent.
  eapply replace_at_scalars_kept; [done..|]. by apply dict_set_fresh_scalars_kept.
Qed.

Lemma setdefault_loop_scalars_kept tree parent parent_keys path r tree' :
  valid tree parent ->
  Cut.setdefault_loop tree parent parent_keys path = (r, tree') ->
  scalars_kept tree tree'.
Proof.
  revert tree parent. induction parent_keys as [|_key rest IH]; intros tree parent Hparent;
    cbn [Cut.setdefault_loop].
  - intros [= <- <-]. apply scalars_kept_refl.
  - destruct (_traverse_list parent _key path) as [[parent' _key']|error] eqn:Hlist;
      [|intros [= <- <-]; apply scalars_kept_refl].
    pose proof (_traverse_list_valid _ _ _ _ _ _ Hparent Hlist) as Hparent'.
    destruct (subscript parent' _key') as [child|error] eqn:Hsub.
    { apply IH. by eapply subscript_valid. }
    unfold subscript in Hsub.
    destruct (py_getitem (val parent') _key') as [v|error'] eqn:Hget; [done|].
    injection Hsub as <-.
    destruct (class_of error') eqn:Hclass;
      try (intros [= <- <-]; apply scalars_kept_refl).
    destruct (py_getitem_KeyError _ _ _ Hget Hclass) as (d & Hval & Hfresh).
    pose proof (store_fresh_scalars_kept tree parent' _key' (VDict []) d Hparent' Hval Hfresh)
      as Hkept.
    destruct (store_fresh tree parent' _key' (VDict []) d Hparent' Hval Hfresh)
      as (-> & _ & Hchild).
    intros Hloop. eapply scalars_kept_trans; [done|]. by eapply IH.
Qed.

Lemma setdefault_scalars_kept self path default r tree' :
  Cut.setdefault self path default = (r, tree') -> scalars_kept (Cut.data self) tree'.
Proof.
  unfold Cut.setdefault.
  destruct (let* keys := py_split path (Cut.sep self) in unpack_last keys)
    as [[parent_keys last_key]|error]; [|intros [= <- <-]; apply scalars_kept_refl].
  destruct (Cut.setdefault_loop _ _ parent_keys path) as [[parent|error] tree] eqn:Hloop.
  2: { apply setdefault_loop_scalars_kept in Hloop; [|done]. by intros [= <- <-]. }
  assert (valid (Cut.data self) (root_ref (Cut.data self))) as Hroot by done.
  pose proof (setdefault_loop_scalars_kept _ _ _ _ _ _ Hroot Hloop) as Hkept.
  apply setdefault_loop_Ok in Hloop as (_ & _ & _ & Hparent); [|done].
  destruct (_traverse_list parent last_key path) as [[parent' last_key']|error] eqn:Hlist;
    [|by intros [= <- <-]].
  pose proof (_traverse_list_valid _ _ _ _ _ _ Hparent Hlist) as Hparent'.
  destruct (py_getitem (val parent') last_key') as [item|error] eqn:Hget;
    [by intros [= <- <-]|].
  destruct (class_of error) eqn:Hclass; try (by intros [= <- <-]).
  destruct (py_getitem_KeyError _ _ _ Hget Hclass) as (d & Hval & Hfresh).
  pose proof (store_fresh_scalars_kept tree parent' last_key' default d Hparent' Hval Hfresh)
    as Hkept'.
  destruct (store_fresh tree parent' last_key' default d Hparent' Hval Hfresh) as (-> & _ & _).
  intros [= <- <-]. by eapply scalars_kept_trans.
Qed.

End SetdefaultKeeps.

(** X17: [setdefault] never changes what is already there: whatever it
    returns or raises, every path that read a scalar (a number, a string, a
    boolean or [None]) before the call reads the same scalar in the tree the
    call leaves. *)
Theorem X17_setdefault_keeps_every_scalar self path default r tree other v :
  Cut.setdefault self path default = (r, tree) ->
  Cut.__getitem__ self other = Ok v ->
  ~ is_container v ->
  Cut.__getitem__ {| Cut.data := tree; Cut.sep := Cut.sep self |} other = Ok v.
Proof.
  intros Hset (keys & k & item & Hparse & Hloop & Hget)%getitem_Ok Hscalar.
  apply setdefault_scalars_kept in Hset.
  assert (traverse_loop (Cut.data self) (keys ++ [k]) = inl v) as Hread
    by (by rewrite traverse_loop_snoc, Hloop, Hget).
  apply (Hset _ _) in Hread; [|exact Hscalar]. rewrite traverse_loop_snoc in Hread.
  destruct (traverse_loop tree keys) as [item'|] eqn:Hloop'; [|done].
  destruct (py_getitem item' k) as [v'|] eqn:Hget'; [|done]. injection Hread as ->.
  apply getitem_Ok. by exists keys, k, item'.
Qed.

Lemma X17_witness :
  Cut.__getitem__
    {| Cut.data := (Cut.setdefault (cut pokemon) "pokemon[0].stats.hp" (VInt 9)).2;
       Cut.sep := "." |} "pokemon[0].level" = Ok (VInt 1).
Proof.
  apply (X17_setdefault_keeps_every_scalar (cut pokemon) "pokemon[0].stats.hp" (VInt 9)
           (Cut.setdefault (cut pokemon) "pokemon[0].stats.hp" (VInt 9)).1);
    [reflexivity|reflexivity|by intros []].
Defined.

(** ** Items *)

Section Items.

Lemma dict_get_item k v d : NoDup d.*1 -> (k, v) ∈ d -> dict_get k d = Some v.
Proof.
  induction d as [|[k' v'] d IH]; [by intros _ ?%elem_of_nil|].
  cbn [fmap list_fmap fst dict_get].
  intros [Hnotin Hnodup]%NoDup_cons [[= -> ->]|Hin]%elem_of_cons.
  - by rewrite decide_True.
  - rewrite decide_False; [by apply IH|]. intros ->. apply Hnotin.
    apply list_elem_of_fmap. by exists (k, v).
Qed.

End Items.

(** X18: in a [Cut] over a dictionary whose keys are distinct, every item
    of [items()] whose key is a string of one segment without brackets is
    read back by [__getitem__] under that key. *)
Theorem X18_items_read_back self its key v :
  Cut.items self = Ok its ->
  NoDup its.*1 ->
  (KStr key, v) ∈ its ->
  py_split key (Cut.sep self) = Ok [key] ->
  contains_char "[" key = false ->
  Cut.__getitem__ self key = Ok v.
Proof.
  intros Hitems Hnodup Hin Hsplit Hplain. rewrite getitem_plain_key by done.
  unfold Cut.items in Hitems. destruct (Cut.data self) as [| | | | |d]; try done.
  injection Hitems as <-. cbn [py_getitem]. by rewrite (dict_get_item _ v).
Qed.

Lemma X18_witness : Cut.__getitem__ (cut a_1) "a" = Ok (VInt 1).
Proof.
  apply (X18_items_read_back (cut a_1) [(KStr "a", VInt 1)] "a" (VInt 1));
    try reflexivity; [apply NoDup_singleton|apply list_elem_of_here].
Defined.
